(** * Provider registrar (identity/registry/provider_registrar.go)

    A shallow embedding of the provider registrar of the node: the
    per-event registration pipeline ([handleEvent] and the functions it
    calls), the retry policy ([handleEventWithRetries], [delayedRequeue]),
    the worker loop ([start]) and the shutdown latch ([stop]).

    The pipeline is sequential code that calls five collaborator
    interfaces; it is embedded in a state monad over the registrar's own
    mutable state and the state of the collaborators.  The goroutines,
    the unbuffered queue and the stop channel are embedded as a labelled
    transition system whose labels are the atomic steps the Go runtime can
    take. *)

From stdpp Require Import base option list gmap strings.
From Stdlib Require Import ZArith.
From Stdlib.Strings Require Import Byte.

Set Default Proof Using "Type".

(** ** Go values *)

(** [int]: a 64-bit signed integer; arithmetic wraps around silently. *)
Definition int_min : Z := (- 2 ^ 63)%Z.
Definition int_max : Z := (2 ^ 63 - 1)%Z.
Definition int_ok (n : Z) : Prop := (int_min ≤ n ≤ int_max)%Z.
Definition int_wrap (n : Z) : Z := ((n + 2 ^ 63) mod 2 ^ 64 - 2 ^ 63)%Z.

(** [common.Address] is a 20-byte array; [Address.Bytes()] is its content. *)
Definition Address : Type := list byte.

(** [identity.Identity] *)
Record Identity : Type := mkIdentity { Address_of : string }.

(** The error values the registrar builds.  A collaborator's error is
    opaque to the registrar; [errors.Wrap] and [fmt.Errorf] with [%w] keep
    the cause. *)
Inductive error : Type :=
| ErrCollaborator (msg : string)
| ErrWrap (cause : error) (message : string)
| ErrRegistryAddress (chain : Z) (cause : error).

(** [errors.Wrap(err, message)], for a non-nil [err]. *)
Definition errors_Wrap (err : error) (message : string) : error :=
  ErrWrap err message.

(** [fmt.Errorf("could not get registry address for chain %v: %w", chain, err)] *)
Definition Errorf_registry (chain : Z) (err : error) : error :=
  ErrRegistryAddress chain err.

(** Modelled from the spec: the [RegistrationStatus] type is declared in a
    file of package registry that is not among the sources; the spec gives
    it as the enum {Registered, NotRegistered}. *)
Inductive RegistrationStatus : Type := Registered | NotRegistered.

(** The two fields of [servicestate.AppEventServiceStatus] the registrar reads. *)
Record AppEventServiceStatus : Type := mkEvent {
  ProviderID : string;
  Status : string
}.

(** Modelled from the spec: [servicestate.Running] is declared outside the
    sources; the spec has the status compared against the literal "Running". *)
Definition servicestate_Running : string := "Running".

Record queuedEvent : Type := mkQueued {
  event : AppEventServiceStatus;
  retries : Z
}.

Record ProviderRegistrarConfig : Type := mkConfig {
  IsTestnet3 : bool;
  MaxRetries : Z;
  DelayBetweenRetries : Z
}.

(** ** What the registrar imports *)

(** Functions of imported packages ([bytes], [identity], [common]); their
    code is not part of the registrar and they are taken as given. *)
Class Imports : Type := {
  bytes_EqualFold : list byte → list byte → bool;
  identity_FromAddress : string → Identity;
  ToCommonAddress : Identity → Address;
  Hex : Address → string
}.

(** The chain identifiers [config.GetInt64] returns for the three flags. *)
Class ChainFlags : Type := {
  FlagChainID : Z;
  FlagChain1ChainID : Z;
  FlagChain2ChainID : Z
}.

(** The collaborator interfaces.  A method reads and updates the state [W]
    of the world outside the registrar, and returns what the Go method
    returns: a value and an error that is nil or not. *)
Class registrationStatusChecker (W : Type) : Type := {
  GetRegistrationStatus : Z → Identity → W → (RegistrationStatus * option error) * W
}.

Class txer (W : Type) : Type := {
  RegisterIdentity :
    string → Z → option Z → string → Z → option string → W → option error * W;
  CheckIfRegistrationBountyEligible : Identity → W → (bool * option error) * W
}.

Class multiChainAddressKeeper (W : Type) : Type := {
  GetRegistryAddress : Z → W → (Address * option error) * W;
  GetChannelAddress : Z → Identity → W → (Address * option error) * W
}.

Class bsaver (W : Type) : Type := {
  Save : string → string → W → option error * W
}.

Class bc (W : Type) : Type := {
  GetBeneficiary : Z → Address → Address → W → (Address * option error) * W
}.

(** A call of a collaborator method, with its arguments. *)
Inductive Call : Type :=
| CallGetRegistrationStatus (chain : Z) (id : Identity)
| CallCheckEligible (id : Identity)
| CallGetRegistryAddress (chain : Z)
| CallGetBeneficiary (chain : Z) (registry identity : Address)
| CallGetChannelAddress (chain : Z) (id : Identity)
| CallRegisterIdentity (id : string) (stake : Z) (fee : option Z)
    (beneficiary : string) (chain : Z) (referralToken : option string)
| CallSave (id beneficiary : string).

Definition is_submission (c : Call) : bool :=
  match c with CallRegisterIdentity _ _ _ _ _ _ => true | _ => false end.

Definition is_eligibility_check (c : Call) : bool :=
  match c with CallCheckEligible _ => true | _ => false end.

Definition is_beneficiary_lookup (c : Call) : bool :=
  match c with
  | CallGetRegistryAddress _ | CallGetBeneficiary _ _ _ => true
  | _ => false
  end.

(** ** Address constants *)

Definition newRegistryAddress : Address :=
  [xdf; xab; x03; xc9; xfb; xdb; xef; x66; xda; x10;
   x5b; x88; x77; x6b; x35; xbf; xd7; x74; x3d; x39].

Definition oldRegistryAddress : Address :=
  [x15; xb1; x28; x1f; x4e; x58; x21; x5b; x2c; x32;
   x43; xd8; x64; xbd; xf8; xb9; xdd; xdc; x0d; xa2].

Definition zeroAddress : Address := replicate 20 x00.

(** ** The pipeline *)

Section Pipeline.
Context {W : Type}.
Context `{!Imports, !ChainFlags}.
Context `{!registrationStatusChecker W, !txer W, !multiChainAddressKeeper W,
          !bsaver W, !bc W}.
Variable cfg : ProviderRegistrarConfig.

(** What the pipeline reads and writes: the collaborators' state, the
    map [registeredIdentities] (a set: its values are empty structs) and
    the log of the calls made so far. *)
Record Registrar : Type := mkRegistrar {
  world : W;
  registeredIdentities : gset string;
  calls : list Call
}.

Definition M (A : Type) : Type := Registrar → A * Registrar.

#[export] Instance M_ret : MRet M := λ A a s, (a, s).
#[export] Instance M_bind : MBind M :=
  λ A B f m s, let '(a, s') := m s in f a s'.

(** Calling a collaborator: the call is logged and the world steps. *)
Definition invoke {A : Type} (c : Call) (method : W → A * W) : M A :=
  λ s, let '(a, w) := method (world s) in
       (a, mkRegistrar w (registeredIdentities s) (calls s ++ [c])).

(** [pr.registeredIdentities[id] = struct{}{}] *)
Definition markRegistered (id : string) : M () :=
  λ s, ((), mkRegistrar (world s) ({[id]} ∪ registeredIdentities s) (calls s)).

Definition l2chainID : Z := FlagChain2ChainID.
Definition l1chainID : Z := FlagChain1ChainID.
Definition chainID : Z := FlagChainID.

Definition isZeroAddress (a : Address) : bool :=
  bytes_EqualFold a zeroAddress.

Definition needsHandling (qe : queuedEvent) (s : Registrar) : bool :=
  if negb (String.eqb (Status (event qe)) servicestate_Running) then false
  else if bool_decide (ProviderID (event qe) ∈ registeredIdentities s) then false
  else true.

(** [common.Address{}] is written out as its twenty zero bytes; the error
    of [GetBeneficiary] is logged and not looked at again. *)
Definition getBeneficiaryFromOldRegistry (id : Identity)
  : M (Address * option error) :=
  '(registryAddress, err) ←
    invoke (CallGetRegistryAddress l1chainID) (GetRegistryAddress l1chainID);
  match err with
  | Some e => mret (replicate 20 x00, Some (Errorf_registry l1chainID e))
  | None =>
      if bytes_EqualFold registryAddress newRegistryAddress then
        '(benef, _) ←
          invoke (CallGetBeneficiary 5 oldRegistryAddress (ToCommonAddress id))
                 (GetBeneficiary 5 oldRegistryAddress (ToCommonAddress id));
        mret (benef, None)
      else mret (replicate 20 x00, None)
  end.

(** The tail of [registerIdentity], from the submission on. *)
Definition submitRegistration (qe : queuedEvent) (id : Identity)
    (benef settleBeneficiary : Address) : M (option error) :=
  err ← invoke
    (CallRegisterIdentity (ProviderID (event qe)) 0 None
       (Hex settleBeneficiary) chainID None)
    (RegisterIdentity (ProviderID (event qe)) 0 None
       (Hex settleBeneficiary) chainID None);
  match err with
  | Some e => mret (Some (errors_Wrap e "could not register identity on BC"))
  | None =>
      _ ← (if Z.eqb chainID l2chainID then
             _ ← invoke (CallSave (Address_of id) (Hex benef))
                        (Save (Address_of id) (Hex benef));
             mret ()
           else mret ());
      _ ← markRegistered (ProviderID (event qe));
      mret None
  end.

Definition registerIdentity (qe : queuedEvent) (id : Identity) (benef : Address)
  : M (option error) :=
  if isZeroAddress benef then mret None
  else if Z.eqb chainID l2chainID then
    '(settleBeneficiary, err) ←
      invoke (CallGetChannelAddress chainID id) (GetChannelAddress chainID id);
    match err with
    | Some e => mret (Some e)
    | None => submitRegistration qe id benef settleBeneficiary
    end
  else submitRegistration qe id benef benef.

(** The tail of [registerIdentityIfEligible], from the lookup of the old
    beneficiary on. *)
Definition migrateAndRegister (qe : queuedEvent) (id : Identity)
  : M (option error) :=
  '(benef, err) ← getBeneficiaryFromOldRegistry id;
  match err with
  | Some e => mret (Some e)
  | None => registerIdentity qe id benef
  end.

Definition registerIdentityIfEligible (qe : queuedEvent) : M (option error) :=
  let id := identity_FromAddress (ProviderID (event qe)) in
  if negb (IsTestnet3 cfg) then
    '(eligible, err) ←
      invoke (CallCheckEligible id) (CheckIfRegistrationBountyEligible id);
    match err with
    | Some e =>
        mret (Some (errors_Wrap e "could not check eligibility for auto-registration"))
    | None => if negb eligible then mret None else migrateAndRegister qe id
    end
  else migrateAndRegister qe id.

Definition handleEvent (qe : queuedEvent) : M (option error) :=
  '(registered, err) ←
    invoke (CallGetRegistrationStatus chainID
              (identity_FromAddress (ProviderID (event qe))))
           (GetRegistrationStatus chainID
              (identity_FromAddress (ProviderID (event qe))));
  match err with
  | Some e => mret (Some (errors_Wrap e "could not check registration status on BC"))
  | None =>
      match registered with
      | Registered => _ ← markRegistered (ProviderID (event qe)); mret None
      | _ => registerIdentityIfEligible qe
      end
  end.

(** The event gets as far as the lookup of the old beneficiary: the
    status check answers NotRegistered without an error, and the
    eligibility check is skipped (test network) or answers "eligible"
    without an error.  [s1] is the state at that point. *)
Definition reachesLookup (qe : queuedEvent) (s s1 : Registrar) : Prop :=
  let id := identity_FromAddress (ProviderID (event qe)) in
  ∃ w1,
    GetRegistrationStatus chainID id (world s) = ((NotRegistered, None), w1) ∧
    if IsTestnet3 cfg then
      s1 = mkRegistrar w1 (registeredIdentities s)
             (calls s ++ [CallGetRegistrationStatus chainID id])
    else
      ∃ w2,
        CheckIfRegistrationBountyEligible id w1 = ((true, None), w2) ∧
        s1 = mkRegistrar w2 (registeredIdentities s)
               (calls s ++ [CallGetRegistrationStatus chainID id;
                            CallCheckEligible id]).

(** [logs P m]: running [m] appends calls to the log, all of them in [P]. *)
Definition logs {A : Type} (P : Call → Prop) (m : M A) : Prop :=
  ∀ s, ∃ tr, calls (m s).2 = calls s ++ tr ∧ Forall P tr.

End Pipeline.

(** ** Goroutines, the queue and the stop channel *)

(** A channel that is only ever closed: [stopChan]. *)
Inductive ChanState : Type := Open | Closed.

(** The loop of [start]: not entered yet, running, or returned with its
    result.  A loop that has returned can be entered again. *)
Inductive Worker : Type :=
| NotStarted
| Running
| Exited (result : option error).

(** What the [select] of [start] takes. *)
Inductive Select : Type :=
| StopSignal
| Received (qe : queuedEvent).

(** What the [select] of [delayedRequeue] takes. *)
Inductive RequeueSelect : Type :=
| StopReceived
| TimerFired.

Section Orchestrator.
Context {W : Type}.
Context `{!Imports, !ChainFlags}.
Context `{!registrationStatusChecker W, !txer W, !multiChainAddressKeeper W,
          !bsaver W, !bc W}.
Variable cfg : ProviderRegistrarConfig.

(** The registrar and its goroutines.
    - [queue]: the unbuffered channel [pr.queue], as the goroutines
      blocked in [pr.queue <- qe], in the order they arrived;
    - [timers]: the goroutines inside the [select] of [delayedRequeue],
      each with the duration it gave to [time.After];
    - [closes] and [scheduled] are history: how often [close(pr.stopChan)]
      ran, and every event handed to [go pr.delayedRequeue]. *)
Record System : Type := mkSystem {
  pr : Registrar (W := W);
  once : bool;
  stopChan : ChanState;
  queue : list queuedEvent;
  timers : list (queuedEvent * Z);
  worker : Worker;
  closes : nat;
  scheduled : list queuedEvent
}.

Definition set_pr (r : Registrar) (s : System) : System :=
  mkSystem r (once s) (stopChan s) (queue s) (timers s) (worker s)
           (closes s) (scheduled s).
Definition set_once (b : bool) (s : System) : System :=
  mkSystem (pr s) b (stopChan s) (queue s) (timers s) (worker s)
           (closes s) (scheduled s).
Definition set_queue (q : list queuedEvent) (s : System) : System :=
  mkSystem (pr s) (once s) (stopChan s) q (timers s) (worker s)
           (closes s) (scheduled s).
Definition set_timers (t : list (queuedEvent * Z)) (s : System) : System :=
  mkSystem (pr s) (once s) (stopChan s) (queue s) t (worker s)
           (closes s) (scheduled s).
Definition set_worker (w : Worker) (s : System) : System :=
  mkSystem (pr s) (once s) (stopChan s) (queue s) (timers s) w
           (closes s) (scheduled s).

(** [go pr.delayedRequeue(qe)]: the new goroutine enters its [select]. *)
Definition go_delayedRequeue (qe : queuedEvent) (s : System) : System :=
  mkSystem (pr s) (once s) (stopChan s) (queue s)
           (timers s ++ [(qe, DelayBetweenRetries cfg)]) (worker s)
           (closes s) (scheduled s ++ [qe]).

(** The result of a step: the next state, a Go panic, or the step cannot
    be taken in this state. *)
Inductive Outcome : Type :=
| Next (s : System)
| Panic (msg : string)
| Disabled.

(** [NewProviderRegistrar] *)
Definition NewProviderRegistrar (w : W) : System :=
  mkSystem (mkRegistrar w ∅ []) false Open [] [] NotStarted 0 [].

(** [pr.queue <- queuedEvent{event, 0}]: the sender blocks until received. *)
Definition consumeServiceEvent (e : AppEventServiceStatus) (s : System) : System :=
  set_queue (queue s ++ [mkQueued e 0]) s.

Definition handleEventWithRetries (qe : queuedEvent) (s : System)
  : option error * System :=
  let '(err, r) := handleEvent cfg qe (pr s) in
  match err with
  | None => (None, set_pr r s)
  | Some e =>
      if (retries qe <? MaxRetries cfg)%Z then
        let qe' := mkQueued (event qe) (int_wrap (retries qe + 1)) in
        (None, go_delayedRequeue qe' (set_pr r s))
      else
        (Some (errors_Wrap e "max attempts reached for provider registration"),
         set_pr r s)
  end.

(** [delayedRequeue], after its [select]: what it sends to the queue. *)
Definition delayedRequeue (qe : queuedEvent) (sel : RequeueSelect)
  : option queuedEvent :=
  match sel with
  | StopReceived => None
  | TimerFired => Some qe
  end.

(** One turn of the loop of [start]. *)
Definition startTurn (sel : Select) (s : System) : System :=
  match sel with
  | StopSignal => set_worker (Exited None) s
  | Received ev =>
      if negb (needsHandling ev (pr s)) then s
      else
        let '(err, s') := handleEventWithRetries ev s in
        match err with
        | Some e => set_worker (Exited (Some e)) s'
        | None => s'
        end
  end.

(** [close(pr.stopChan)]: closing a closed channel panics. *)
Definition close_stopChan (s : System) : Outcome :=
  match stopChan s with
  | Open =>
      Next (mkSystem (pr s) (once s) Closed (queue s) (timers s) (worker s)
                     (S (closes s)) (scheduled s))
  | Closed => Panic "close of closed channel"
  end.

(** [sync.Once.Do]: the function runs on the first call only. *)
Definition once_Do (f : System → Outcome) (s : System) : Outcome :=
  if once s then Next s else f (set_once true s).

Definition stop (s : System) : Outcome := once_Do close_stopChan s.

(** The atomic steps.  A step of the worker is the whole handling of one
    event: the worker is the only goroutine that touches the [Registrar].

    [handleNodeStartupEvents] calls [start] on every Started event, so
    [NodeStarted] enters the loop for the first time and again whenever it
    has returned.  A Started event that arrives while the loop is running
    would run a second loop beside the first, and the two would race on
    the registrar; the model follows one loop at a time and has no step
    for that. *)
Inductive Label : Type :=
| NodeStarted                       (* start() is entered *)
| ServiceEvent (e : AppEventServiceStatus)  (* consumeServiceEvent(e) *)
| WorkerReceives                    (* start: case event := <-pr.queue *)
| WorkerStops                       (* start: case <-pr.stopChan *)
| TimerFires (i : nat)              (* delayedRequeue: case <-time.After *)
| RequeueCancelled (i : nat)        (* delayedRequeue: case <-pr.stopChan *)
| NodeStopped.                      (* pr.stop() *)

Definition step (l : Label) (s : System) : Outcome :=
  match l with
  | NodeStarted =>
      match worker s with
      | Running => Disabled
      | NotStarted | Exited _ => Next (set_worker Running s)
      end
  | ServiceEvent e => Next (consumeServiceEvent e s)
  | WorkerReceives =>
      match worker s, queue s with
      | Running, qe :: rest => Next (startTurn (Received qe) (set_queue rest s))
      | _, _ => Disabled
      end
  | WorkerStops =>
      match worker s, stopChan s with
      | Running, Closed => Next (startTurn StopSignal s)
      | _, _ => Disabled
      end
  | TimerFires i =>
      match timers s !! i with
      | Some (qe, _) =>
          Next (set_queue (queue s ++ option_list (delayedRequeue qe TimerFired))
                          (set_timers (delete i (timers s)) s))
      | None => Disabled
      end
  | RequeueCancelled i =>
      match stopChan s, timers s !! i with
      | Closed, Some (qe, _) =>
          Next (set_queue (queue s ++ option_list (delayedRequeue qe StopReceived))
                          (set_timers (delete i (timers s)) s))
      | _, _ => Disabled
      end
  | NodeStopped => stop s
  end.

Fixpoint run (ls : list Label) (s : System) : Outcome :=
  match ls with
  | [] => Next s
  | l :: ls' =>
      match step l s with
      | Next s' => run ls' s'
      | o => o
      end
  end.

(** *** A single event that is retried *)

(** [attempts n ev r]: the pipeline, run on [ev] again and again from
    [r], fails [n] times and then succeeds; the result is the state
    after the successful run. *)
Fixpoint attempts (n : nat) (ev : AppEventServiceStatus) (r : Registrar)
  : option Registrar :=
  match n, handleEvent cfg (mkQueued ev 0) r with
  | O, (None, r') => Some r'
  | S n', (Some _, r') => attempts n' ev r'
  | _, _ => None
  end.

(** The schedule in which the worker takes the event and, [n] times, the
    timer of the retry fires and the worker takes the event again. *)
Fixpoint retrySchedule (n : nat) : list Label :=
  match n with
  | O => [WorkerReceives]
  | S n' => WorkerReceives :: TimerFires 0 :: retrySchedule n'
  end.

(** The event [ev] with the retry counts [k + 1], ..., [k + n]. *)
Fixpoint retried (ev : AppEventServiceStatus) (k : Z) (n : nat)
  : list queuedEvent :=
  match n with
  | O => []
  | S n' => mkQueued ev (k + 1) :: retried ev (k + 1) n'
  end.



(** How many of the steps are calls of [stop]. *)
Definition is_stop (l : Label) : bool :=
  match l with NodeStopped => true | _ => false end.

Fixpoint stops_in (ls : list Label) : nat :=
  match ls with
  | [] => 0
  | l :: ls' => (if is_stop l then 1 else 0) + stops_in ls'
  end.

(** The latch and the channel agree: [close] ran once, inside [Do], or
    not at all. *)
Definition latch_consistent (s : System) : Prop :=
  (once s = false ∧ stopChan s = Open ∧ closes s = 0) ∨
  (once s = true ∧ stopChan s = Closed ∧ closes s = 1).

End Orchestrator.

(** ** Scripted collaborators

    Collaborators in the style of the mocks of the Go tests: every method
    answers from its own list of prepared replies, one reply per call, and
    with a fixed error once the list is used up.  The stand-ins for the
    imported functions are the simplest ones of the right type. *)
Module Mock.

Record World : Type := mkWorld {
  statusReplies : list (RegistrationStatus * option error);
  eligibleReplies : list (bool * option error);
  registryReplies : list (Address * option error);
  beneficiaryReplies : list (Address * option error);
  channelReplies : list (Address * option error);
  registerReplies : list (option error);
  saveReplies : list (option error)
}.

Definition exhausted : error := ErrCollaborator "no reply prepared".

Definition quiet : World := mkWorld [] [] [] [] [] [] [].

Definition pop {A : Type} (default : A) (l : list A) : A * list A :=
  match l with
  | [] => (default, [])
  | a :: l' => (a, l')
  end.

#[export] Instance checker : registrationStatusChecker World := {|
  GetRegistrationStatus _ _ w :=
    let '(r, l) := pop (NotRegistered, Some exhausted) (statusReplies w) in
    (r, mkWorld l (eligibleReplies w) (registryReplies w) (beneficiaryReplies w)
          (channelReplies w) (registerReplies w) (saveReplies w))
|}.

#[export] Instance transactor : txer World := {|
  RegisterIdentity _ _ _ _ _ _ w :=
    let '(r, l) := pop (Some exhausted) (registerReplies w) in
    (r, mkWorld (statusReplies w) (eligibleReplies w) (registryReplies w)
          (beneficiaryReplies w) (channelReplies w) l (saveReplies w));
  CheckIfRegistrationBountyEligible _ w :=
    let '(r, l) := pop (false, Some exhausted) (eligibleReplies w) in
    (r, mkWorld (statusReplies w) l (registryReplies w) (beneficiaryReplies w)
          (channelReplies w) (registerReplies w) (saveReplies w))
|}.

#[export] Instance keeper : multiChainAddressKeeper World := {|
  GetRegistryAddress _ w :=
    let '(r, l) := pop (zeroAddress, Some exhausted) (registryReplies w) in
    (r, mkWorld (statusReplies w) (eligibleReplies w) l (beneficiaryReplies w)
          (channelReplies w) (registerReplies w) (saveReplies w));
  GetChannelAddress _ _ w :=
    let '(r, l) := pop (zeroAddress, Some exhausted) (channelReplies w) in
    (r, mkWorld (statusReplies w) (eligibleReplies w) (registryReplies w)
          (beneficiaryReplies w) l (registerReplies w) (saveReplies w))
|}.

#[export] Instance saver : bsaver World := {|
  Save _ _ w :=
    let '(r, l) := pop (Some exhausted) (saveReplies w) in
    (r, mkWorld (statusReplies w) (eligibleReplies w) (registryReplies w)
          (beneficiaryReplies w) (channelReplies w) (registerReplies w) l)
|}.

#[export] Instance chain : bc World := {|
  GetBeneficiary _ _ _ w :=
    let '(r, l) := pop (zeroAddress, Some exhausted) (beneficiaryReplies w) in
    (r, mkWorld (statusReplies w) (eligibleReplies w) (registryReplies w) l
          (channelReplies w) (registerReplies w) (saveReplies w))
|}.

(** Byte-wise equality of two byte strings (no case folding). *)
Fixpoint bytes_eqb (a b : list byte) : bool :=
  match a, b with
  | [], [] => true
  | x :: a', y :: b' => Byte.eqb x y && bytes_eqb a' b'
  | _, _ => false
  end.

Definition hex_digit (n : N) : string :=
  String.substring (N.to_nat n) 1 "0123456789abcdef".

Fixpoint hex_of (a : list byte) : string :=
  match a with
  | [] => ""
  | x :: a' =>
      hex_digit (Byte.to_N x / 16) +:+ hex_digit (Byte.to_N x mod 16) +:+ hex_of a'
  end.

#[export] Instance imports : Imports := {|
  bytes_EqualFold := bytes_eqb;
  identity_FromAddress := mkIdentity;
  ToCommonAddress _ := replicate 19 x00 ++ [x2a];
  Hex a := "0x" +:+ hex_of a
|}.

(** Default chain 137 is also the settlement chain; chain 5 is the legacy one. *)
#[export] Instance flags : ChainFlags := {|
  FlagChainID := 137;
  FlagChain1ChainID := 5;
  FlagChain2ChainID := 137
|}.

Definition cfg : ProviderRegistrarConfig := mkConfig false 2 10000000.

Definition running (id : string) : queuedEvent :=
  mkQueued (mkEvent id "Running") 0.

Definition boom : error := ErrCollaborator "rpc failed".

Definition fresh (w : World) : Registrar := mkRegistrar w ∅ [].

(** A beneficiary and a channel address, neither of them zero. *)
Definition addrB : Address := replicate 19 x00 ++ [x0b].
Definition addrC : Address := replicate 19 x00 ++ [x0c].

(** Configurations: no retry at all, and the legacy test network. *)
Definition cfg0 : ProviderRegistrarConfig := mkConfig false 0 10000000.
Definition cfgTestnet : ProviderRegistrarConfig := mkConfig true 2 10000000.

Definition provider : string := "0xabc".
Definition providerIdentity : Identity := mkIdentity provider.

(** The worker runs and the goroutines in [q] wait to send. *)
Definition started (w : World) (q : list queuedEvent) : System :=
  mkSystem (fresh w) false Open q [] Running 0 [].

(** The status check answers with the given replies, nothing else is
    prepared. *)
Definition statusWorld (replies : list (RegistrationStatus * option error))
  : World :=
  mkWorld replies [] [] [] [] [] [].

(** A provider that is not registered and is eligible, on a node whose
    legacy chain has the new registry; the read of the old beneficiary
    answers [reply], and the channel address, the submission and the
    store answer without error. *)
Definition migrationWorld (reply : Address * option error) : World :=
  mkWorld [(NotRegistered, None)] [(true, None)] [(newRegistryAddress, None)]
          [reply] [(addrC, None)] [None] [None].

(** The same world after the status and the eligibility check, after the
    registry lookup on top of that, and after the beneficiary read. *)
Definition migrationWorld1 (reply : Address * option error) : World :=
  mkWorld [] [] [(newRegistryAddress, None)] [reply] [(addrC, None)] [None] [None].
Definition migrationWorld2 (reply : Address * option error) : World :=
  mkWorld [] [] [] [reply] [(addrC, None)] [None] [None].
Definition migrationWorld3 : World :=
  mkWorld [] [] [] [] [(addrC, None)] [None] [None].

Definition atLookup (w : World) : Registrar :=
  mkRegistrar w ∅
    [CallGetRegistrationStatus 137 providerIdentity;
     CallCheckEligible providerIdentity].

End Mock.

(** ** Reading the log of calls *)

(** The submissions among some calls, in order. *)
Fixpoint submissions (tr : list Call) : list Call :=
  match tr with
  | [] => []
  | c :: tr' => if is_submission c then c :: submissions tr' else submissions tr'
  end.


(** ** What holds in every state the registrar can reach *)

Section Invariants.
Context {W : Type}.
Variable cfg : ProviderRegistrarConfig.

(** The events waiting to be sent have a retry count between 0 and
    [MaxRetries]; those waiting for their timer have been retried at least
    once and wait for the configured delay. *)
Definition retries_within (s : System (W := W)) : Prop :=
  Forall (λ qe, (0 ≤ retries qe ≤ Z.max 0 (MaxRetries cfg))%Z) (queue s) ∧
  Forall (λ t, (1 ≤ retries t.1 ≤ MaxRetries cfg)%Z ∧
               t.2 = DelayBetweenRetries cfg) (timers s).

(** Why the worker has returned, if it has: with nil only after the stop
    channel was closed, with an error only with the "max attempts" one. *)
Definition exit_explained (s : System (W := W)) : Prop :=
  match worker s with
  | Exited None => stopChan s = Closed
  | Exited (Some e) =>
      ∃ cause, e = ErrWrap cause "max attempts reached for provider registration"
  | _ => True
  end.

End Invariants.

(** * Port pool (package port)

    [Pool] hands out ports of a fixed range.  It draws a port at random,
    probes it, and falls back to a scan of the range from its start.  The
    probe [available] is a function of the package that is not among the
    sources, and the random source is [math/rand]; both are taken as
    given, reading and updating the state [OS] of the machine. *)
Module PortPool.

Record Pool : Type := mkPool { start : Z; capacity : Z }.

(** [errors.Wrap(err, message)]: nil stays nil. *)
Definition Wrap_nilable (err : option error) (message : string) : option error :=
  match err with
  | Some e => Some (ErrWrap e message)
  | None => None
  end.

Section Pool.
Context {OS : Type}.
Variable available : Z → OS → (bool * option error) * OS.
(** [rand.Intn(n)] for a positive [n]. *)
Variable Intn : Z → OS → Z * OS.
Variable pool : Pool.

(** [rand.Intn] panics when its argument is not positive: [None]. *)
Definition randomPort (os : OS) : option (Z * OS) :=
  if (capacity pool <=? 0)%Z then None
  else
    let '(r, os') := Intn (capacity pool) os in
    Some (int_wrap (start pool + r), os').

(** The loop of [seekAvailablePort] over the values of [i] still to come. *)
Fixpoint seek (indices : list Z) (os : OS) : (Z * option error) * OS :=
  match indices with
  | [] => ((0%Z, Some (ErrCollaborator "port pool is exhausted")), os)
  | i :: rest =>
      let p := int_wrap (start pool + i) in
      let '((free, err), os') := available p os in
      match free, err with
      | false, None => seek rest os'
      | _, _ => ((p, err), os')
      end
  end.

Definition seekAvailablePort (os : OS) : (Z * option error) * OS :=
  seek (seqZ 0 (capacity pool)) os.

Definition Acquire (os : OS) : option ((Z * option error) * OS) :=
  match randomPort os with
  | None => None
  | Some (p, os1) =>
      let '((free, err), os2) := available p os1 in
      match err with
      | Some e => Some ((0%Z, Some (ErrWrap e "could not acquire port")), os2)
      | None =>
          let '((p', err'), os3) :=
            if negb free then seekAvailablePort os2 else ((p, None), os2) in
          Some ((p', Wrap_nilable err' "could not acquire port"), os3)
      end
  end.

(** The loop of [AcquireMultiple] with [k] rounds to go. *)
Fixpoint acquireLoop (k : nat) (ports : list Z) (os : OS)
  : option ((list Z * option error) * OS) :=
  match k with
  | O => Some ((ports, None), os)
  | S k' =>
      match Acquire os with
      | None => None
      | Some ((p, Some e), os') => Some ((ports, Some e), os')
      | Some ((p, None), os') => acquireLoop k' (ports ++ [p]) os'
      end
  end.

Definition AcquireMultiple (n : Z) (os : OS)
  : option ((list Z * option error) * OS) :=
  acquireLoop (Z.to_nat n) [] os.

(** The port is one of the pool's range. *)
Definition in_range (p : Z) : Prop :=
  (start pool ≤ p < start pool + capacity pool)%Z.

End Pool.

(** What [math/rand] promises of [Intn]: a draw from [0, n). *)
Definition draws_below {OS : Type} (Intn : Z → OS → Z * OS) : Prop :=
  ∀ n os, (0 < n)%Z → (0 ≤ (Intn n os).1 < n)%Z.

(** A machine for the examples: its state is the list of the random draws
    still to come, and a port is free exactly when it is in [free]. *)
Definition scriptedAvailable (free : list Z) (p : Z) (os : list Z)
  : (bool * option error) * list Z :=
  ((bool_decide (p ∈ free), None), os).

Definition scriptedIntn (n : Z) (os : list Z) : Z * list Z :=
  match os with
  | [] => (0%Z, [])
  | r :: os' => ((r mod n)%Z, os')
  end.

End PortPool.

(** * The build environment file (package env of the CI)

    [GenerateEnvFile] reads the environment of the CI job and writes
    [./build/env.sh].  The environment is a finite map ([os.Getenv] gives
    the empty string for a variable that is not set); the file system is
    taken as given and every operation on it is logged. *)
Module BuildEnv.

Definition devReleaseVersion : string := "0.0.0-dev".
Definition ppaDevReleaseVersion : string := "0.0.0".

Definition ReleaseBuild : string := "RELEASE_BUILD".
Definition MasterBuild : string := "MASTER_BUILD".
Definition PrBuild : string := "PR_BUILD".
Definition BuildVersion : string := "BUILD_VERSION".
Definition PpaVersion : string := "PPA_VERSION".
Definition BuildNumber : string := "BUILD_NUMBER".
Definition GithubOwner : string := "GITHUB_OWNER".
Definition GithubRepository : string := "GITHUB_REPO".
Definition GithubDevBuildRepository : string := "GITHUB_REPO_DEV_BUILD".
Definition GithubApiToken : string := "GITHUB_API_TOKEN".

Record envVar : Type := mkVar { key : string; val : string }.

Definition Getenv (env : gmap string string) (name : string) : string :=
  default "" (env !! name).

(** [strconv.FormatBool] *)
Definition FormatBool (b : bool) : string := if b then "true" else "false".

Definition releaseVersion (env : gmap string string) : string :=
  Getenv env "BUILD_TAG".

Definition isReleaseBuild (env : gmap string string) : bool :=
  negb (String.eqb (releaseVersion env) "").

Definition isMasterBuild (env : gmap string string) : bool :=
  String.eqb (Getenv env "BUILD_BRANCH") "master" && negb (isReleaseBuild env).

Definition isPullRequestBuild (env : gmap string string) : bool :=
  negb (isMasterBuild env) && negb (isReleaseBuild env).

Definition buildVersion (env : gmap string string) : string :=
  if isReleaseBuild env then releaseVersion env
  else devReleaseVersion +:+ "_" +:+ Getenv env "BUILD_COMMIT".

Definition ppaVersion (env : gmap string string) : string :=
  if isReleaseBuild env then releaseVersion env else ppaDevReleaseVersion.

(** The slice [vars] of [GenerateEnvFile]. *)
Definition envVars (env : gmap string string) : list envVar :=
  [mkVar ReleaseBuild (FormatBool (isReleaseBuild env));
   mkVar MasterBuild (FormatBool (isMasterBuild env));
   mkVar PrBuild (FormatBool (isPullRequestBuild env));
   mkVar BuildVersion (buildVersion env);
   mkVar PpaVersion (ppaVersion env);
   mkVar BuildNumber (Getenv env BuildNumber);
   mkVar GithubOwner (Getenv env GithubOwner);
   mkVar GithubRepository (Getenv env GithubRepository);
   mkVar GithubDevBuildRepository (Getenv env GithubDevBuildRepository)].

(** The line feed. *)
Definition newline : string := String (Ascii.ascii_of_nat 10) "".

(** What [fmt.Fprintf] writes for the format [export %s=%s;] and a line
    feed, given [v.key] and [v.val]. *)
Definition exportLine (v : envVar) : string :=
  "export " +:+ key v +:+ "=" +:+ val v +:+ ";" +:+ newline.

(** The operations on the file system, as they are logged. *)
Inductive FsOp : Type :=
| OpMkdir (path : string) (perm : Z)
| OpCreate (path : string)
| OpWrite (path data : string)
| OpClose (path : string).

Section Files.
Context {F : Type}.
(** [os.Mkdir], [os.Create], a write to the created file, and its [Close]. *)
Variable Mkdir : string → Z → F → option error * F.
Variable Create : string → F → option error * F.
Variable Write : string → string → F → option error * F.
Variable Close : string → F → option error * F.

Record Disk : Type := mkDisk { files : F; ops : list FsOp }.

Definition doing (op : FsOp) (f : F → option error * F) (d : Disk)
  : option error * Disk :=
  let '(err, fs) := f (files d) in (err, mkDisk fs (ops d ++ [op])).

(** The loop of [writeEnvVars]: it returns at the first write that fails. *)
Fixpoint writeLines (path : string) (vars : list envVar) (d : Disk)
  : option error * Disk :=
  match vars with
  | [] => (None, d)
  | v :: rest =>
      let '(err, d1) :=
        doing (OpWrite path (exportLine v)) (Write path (exportLine v)) d in
      match err with
      | Some e => (Some e, d1)
      | None => writeLines path rest d1
      end
  end.

(** The file system after a write of the line of each of [vars], one after
    the other. *)
Definition written (path : string) (vars : list envVar) (fs : F) : F :=
  foldl (λ fs v, (Write path (exportLine v) fs).2) fs vars.

(** The log entries of those writes. *)
Definition writesOf (path : string) (vars : list envVar) : list FsOp :=
  OpWrite path ∘ exportLine <$> vars.

Definition writeEnvVars (vars : list envVar) (d : Disk) : option error * Disk :=
  let '(_, d1) := doing (OpMkdir "./build" 493) (Mkdir "./build" 493) d in
  let '(err, d2) := doing (OpCreate "./build/env.sh") (Create "./build/env.sh") d1 in
  match err with
  | Some e => (Some e, d2)
  | None =>
      let '(result, d3) := writeLines "./build/env.sh" vars d2 in
      let '(_, d4) := doing (OpClose "./build/env.sh") (Close "./build/env.sh") d3 in
      (result, d4)
  end.

Definition GenerateEnvFile (env : gmap string string) (d : Disk)
  : option error * Disk :=
  writeEnvVars (envVars env) d.

End Files.

(** A file system for the examples: the state counts the writes still
    allowed; every other operation succeeds. *)
Definition quotaWrite (path data : string) (left : nat) : option error * nat :=
  match left with
  | O => (Some (ErrCollaborator "no space left on device"), O)
  | S n => (None, n)
  end.

Definition alwaysOk (left : nat) : option error * nat := (None, left).

End BuildEnv.

(** * The receiver over NATS (communication/nats/receiver.go)

    [Receive] and [Respond] subscribe a handler for the messages, or the
    requests, of one type.  The handlers are embedded here: what they do
    when a message arrives.  The connection, the codec and the consumer
    are taken as given; they read and update a state [S], and every call
    is logged. *)
Module Receiver.

(** [nats.Msg], as far as the handlers read it. *)
Record Msg : Type := mkMsg { Data : list byte; Reply : string }.

Section Handlers.
Context {S Message Request Response : Type}.
(** [handler.NewMessage], [handler.Handle], [consumer.NewRequest] and
    [consumer.Consume] *)
Variable NewMessage : S → Message * S.
Variable Handle : Message → S → option error * S.
Variable NewRequest : S → Request * S.
Variable Consume : Request → S → (Response * option error) * S.
(** [codec.Unpack] fills the value it is given a pointer to; [codec.Pack] *)
Variable UnpackMessage : list byte → Message → S → (Message * option error) * S.
Variable UnpackRequest : list byte → Request → S → (Request * option error) * S.
Variable Pack : Response → S → (list byte * option error) * S.
(** [connection.Publish] *)
Variable Publish : string → list byte → S → option error * S.

Inductive Op : Type :=
| OpNewMessage
| OpNewRequest
| OpUnpack (data : list byte)
| OpHandle (message : Message)
| OpConsume (request : Request)
| OpPack (response : Response)
| OpPublish (subject : string) (data : list byte).

Record State : Type := mkState { world : S; log : list Op }.

Definition act {A : Type} (op : Op) (f : S → A * S) (st : State) : A * State :=
  let '(a, w) := f (world st) in (a, mkState w (log st ++ [op])).

(** The handler that [Receive] subscribes. *)
Definition messageHandler (msg : Msg) (st : State) : State :=
  let '(messagePtr, st1) := act OpNewMessage NewMessage st in
  let '((message, err), st2) :=
    act (OpUnpack (Data msg)) (UnpackMessage (Data msg) messagePtr) st1 in
  match err with
  | Some _ => st2
  | None => (act (OpHandle message) (Handle message) st2).2
  end.

(** The handler that [Respond] subscribes. *)
Definition requestHandler (msg : Msg) (st : State) : State :=
  let '(requestPtr, st1) := act OpNewRequest NewRequest st in
  let '((request, err), st2) :=
    act (OpUnpack (Data msg)) (UnpackRequest (Data msg) requestPtr) st1 in
  match err with
  | Some _ => st2
  | None =>
      let '((response, err), st3) := act (OpConsume request) (Consume request) st2 in
      match err with
      | Some _ => st3
      | None =>
          let '((responseData, err), st4) :=
            act (OpPack response) (Pack response) st3 in
          match err with
          | Some _ => st4
          | None =>
              (act (OpPublish (Reply msg) responseData)
                   (Publish (Reply msg) responseData) st4).2
          end
      end
  end.

End Handlers.

End Receiver.

(** * More scripted inputs *)

Module Fixtures.
Import Mock.

(** A node whose default chain (1) is not the settlement chain (137). *)
Definition flagsOff : ChainFlags := {|
  FlagChainID := 1;
  FlagChain1ChainID := 1;
  FlagChain2ChainID := 137
|}.


(** The worker has returned with a fatal error; one sender is blocked. *)
Definition afterFatalError : System :=
  mkSystem (mkRegistrar quiet ∅ []) false Open [running "0xdef"] []
           (Exited (Some (ErrWrap boom
                            "max attempts reached for provider registration")))
           0 [].

(** The stop channel is closed and two retries wait for their timers. *)
Definition stoppedWithRetries : System :=
  mkSystem (mkRegistrar quiet ∅ []) true Closed []
           [(mkQueued (mkEvent provider "Running") 1, 10000000%Z);
            (mkQueued (mkEvent "0xdef" "Running") 2, 10000000%Z)]
           Running 1 [].

(** Ports 8000 to 8002. *)
Definition smallPool : PortPool.Pool := PortPool.mkPool 8000 3.
Definition singlePort : PortPool.Pool := PortPool.mkPool 8000 1.

(** Every port is free. *)
Definition alwaysFree (p : Z) (os : list Z) : (bool * option error) * list Z :=
  ((true, None), os).

(** A CI job on the master branch, with a token set. *)
Definition masterJob : gmap string string :=
  {[ "BUILD_BRANCH" := "master"; "BUILD_COMMIT" := "abc1234";
     "BUILD_NUMBER" := "77"; "GITHUB_API_TOKEN" := "secret" ]}.

End Fixtures.

(** * Properties of the pipeline *)

Section PipelineFacts.
Context {W : Type}.
Context `{!Imports, !ChainFlags}.
Context `{!registrationStatusChecker W, !txer W, !multiChainAddressKeeper W,
          !bsaver W, !bc W}.
Variable cfg : ProviderRegistrarConfig.

Implicit Types (s : Registrar (W := W)) (qe : queuedEvent) (id : Identity).
Local Abbreviation M := (M (W := W)).
Local Abbreviation logs := (logs (W := W)).

(** *** Running the monad one step at a time *)

Lemma bind_run {A B : Type} (m : M A) (f : A → M B) s a s' :
  m s = (a, s') → (m ≫= f) s = f a s'.
Proof. intros Hm. unfold mbind, M_bind. by rewrite Hm. Qed.

Lemma invoke_run {A : Type} (c : Call) (method : W → A * W) s a w :
  method (world s) = (a, w) →
  invoke c method s = (a, mkRegistrar w (registeredIdentities s) (calls s ++ [c])).
Proof. intros Hm. unfold invoke. by rewrite Hm. Qed.

(** *** The calls a function makes are appended to the log *)

Lemma logs_ret {A : Type} (P : Call → Prop) (a : A) :
  logs P (mret a).
Proof. intros s. exists []. by rewrite app_nil_r. Qed.

Lemma logs_invoke {A : Type} (P : Call → Prop) c (method : W → A * W) :
  P c → logs P (invoke c method).
Proof.
  intros Hc s. exists [c]. unfold invoke.
  destruct (method (world s)) as [a w]. simpl. split; [done | by constructor].
Qed.

Lemma logs_markRegistered (P : Call → Prop) x :
  logs P (markRegistered x).
Proof. intros s. exists []. simpl. by rewrite app_nil_r. Qed.

Lemma logs_bind {A B : Type} (P : Call → Prop) (m : M A) (f : A → M B) :
  logs P m → (∀ a, logs P (f a)) → logs P (m ≫= f).
Proof.
  intros Hm Hf s. unfold mbind, M_bind.
  destruct (Hm s) as (tr1 & E1 & F1). destruct (m s) as [a s1]. simpl in E1.
  destruct (Hf a s1) as (tr2 & E2 & F2).
  exists (tr1 ++ tr2). split.
  - by rewrite E2, E1, <- app_assoc.
  - by apply Forall_app.
Qed.


Lemma logs_getBeneficiaryFromOldRegistry (P : Call → Prop) id :
  (∀ c, is_beneficiary_lookup c = true → P c) →
  logs P (getBeneficiaryFromOldRegistry id).
Proof.
  intros HP. unfold getBeneficiaryFromOldRegistry.
  apply logs_bind; [by apply logs_invoke, HP |].
  intros [registryAddress [e|]]; [apply logs_ret |].
  destruct (bytes_EqualFold _ _); [| apply logs_ret].
  apply logs_bind; [by apply logs_invoke, HP |].
  intros [benef ?]. apply logs_ret.
Qed.

Lemma logs_submitRegistration (P : Call → Prop) qe id benef settle :
  (∀ c, is_eligibility_check c = false → is_beneficiary_lookup c = false → P c) →
  logs P (submitRegistration qe id benef settle).
Proof.
  intros HP. unfold submitRegistration.
  apply logs_bind; [by apply logs_invoke, HP |].
  intros [e|]; [apply logs_ret |].
  apply logs_bind.
  - destruct (chainID =? l2chainID)%Z; [| apply logs_ret].
    apply logs_bind; [by apply logs_invoke, HP |]. intros ?. apply logs_ret.
  - intros _. apply logs_bind; [apply logs_markRegistered |].
    intros _. apply logs_ret.
Qed.

Lemma logs_registerIdentity (P : Call → Prop) qe id benef :
  (∀ c, is_eligibility_check c = false → is_beneficiary_lookup c = false → P c) →
  logs P (registerIdentity qe id benef).
Proof.
  intros HP. unfold registerIdentity.
  destruct (isZeroAddress benef); [apply logs_ret |].
  destruct (chainID =? l2chainID)%Z; [| by apply logs_submitRegistration].
  apply logs_bind; [by apply logs_invoke, HP |].
  intros [settle [e|]]; [apply logs_ret | by apply logs_submitRegistration].
Qed.

Lemma logs_migrateAndRegister (P : Call → Prop) qe id :
  (∀ c, is_eligibility_check c = false → P c) →
  logs P (migrateAndRegister qe id).
Proof.
  intros HP. unfold migrateAndRegister.
  apply logs_bind.
  - apply logs_getBeneficiaryFromOldRegistry.
    intros [] Hc; try discriminate Hc; by apply HP.
  - intros [benef [e|]]; [apply logs_ret |].
    apply logs_registerIdentity. intros c Hc _. by apply HP.
Qed.

(** *** From the status check to the lookup *)

Lemma handleEvent_reachesLookup qe s s1 :
  reachesLookup cfg qe s s1 →
  handleEvent cfg qe s
  = migrateAndRegister qe (identity_FromAddress (ProviderID (event qe))) s1.
Proof.
  intros (w1 & Hstatus & Hrest). unfold handleEvent.
  erewrite bind_run by (apply invoke_run, Hstatus). simpl.
  unfold registerIdentityIfEligible.
  destruct (IsTestnet3 cfg); simpl.
  - by subst s1.
  - destruct Hrest as (w2 & Helig & ->).
    erewrite bind_run by (apply invoke_run, Helig). simpl.
    by rewrite <- app_assoc.
Qed.

(** *** A failed attempt registers nobody *)

Lemma submitRegistration_error qe id benef settle s e s' :
  submitRegistration qe id benef settle s = (Some e, s') →
  registeredIdentities s' = registeredIdentities s.
Proof.
  unfold submitRegistration, mbind, M_bind, invoke, markRegistered, mret, M_ret.
  destruct (RegisterIdentity _ _ _ _ _ _ _) as [[e1|] w1]; simpl.
  - by intros [= _ <-].
  - destruct (chainID =? l2chainID)%Z; simpl;
      [destruct (Save _ _ _) as [? w2]; simpl |]; intros [=].
Qed.

Lemma registerIdentity_error qe id benef s e s' :
  registerIdentity qe id benef s = (Some e, s') →
  registeredIdentities s' = registeredIdentities s.
Proof.
  unfold registerIdentity.
  destruct (isZeroAddress benef); [intros [=] |].
  destruct (chainID =? l2chainID)%Z; [| apply submitRegistration_error].
  unfold mbind, M_bind, invoke.
  destruct (GetChannelAddress _ _ _) as [[settle [e1|]] w1]; simpl.
  - by intros [= _ <-].
  - intros Hs. by apply submitRegistration_error in Hs.
Qed.

Lemma migrateAndRegister_error qe id s e s' :
  migrateAndRegister qe id s = (Some e, s') →
  registeredIdentities s' = registeredIdentities s.
Proof.
  unfold migrateAndRegister, getBeneficiaryFromOldRegistry, mbind, M_bind, invoke.
  destruct (GetRegistryAddress _ _) as [[registry [e1|]] w1]; simpl.
  - by intros [= _ <-].
  - destruct (bytes_EqualFold _ _); simpl.
    + destruct (GetBeneficiary _ _ _ _) as [[benef ?] w2]; simpl.
      intros Hs. by apply registerIdentity_error in Hs.
    + intros Hs. by apply registerIdentity_error in Hs.
Qed.

Lemma handleEvent_error qe s e s' :
  handleEvent cfg qe s = (Some e, s') →
  registeredIdentities s' = registeredIdentities s.
Proof.
  unfold handleEvent, mbind, M_bind, invoke.
  destruct (GetRegistrationStatus _ _ _) as [[st [e1|]] w1]; simpl.
  - by intros [= _ <-].
  - destruct st; simpl; [intros [=] |].
    unfold registerIdentityIfEligible.
    destruct (IsTestnet3 cfg); simpl.
    + intros Hs. by apply migrateAndRegister_error in Hs.
    + unfold mbind, M_bind, invoke; simpl.
      destruct (CheckIfRegistrationBountyEligible _ _) as [[el [e2|]] w2]; simpl.
      * by intros [= _ <-].
      * destruct el; simpl; [| intros [=]].
        intros Hs. by apply migrateAndRegister_error in Hs.
Qed.

(** [handleEvent] reads the event of a queued event, not its retry count. *)
Lemma handleEvent_retries ev n m :
  handleEvent cfg (mkQueued ev n) = handleEvent cfg (mkQueued ev m).
Proof. reflexivity. Qed.

(** *** The claims about one run of the pipeline *)

(** C3. When the status check on the default chain answers Registered
    (and no error), [handleEvent] makes that one call and no other (no
    eligibility check, no beneficiary lookup, no submission), adds the
    provider to [registeredIdentities] and returns nil. *)
Theorem handleEvent_already_registered qe s w1 :
  GetRegistrationStatus chainID (identity_FromAddress (ProviderID (event qe)))
    (world s) = ((Registered, None), w1) →
  handleEvent cfg qe s
  = (None,
     mkRegistrar w1 ({[ProviderID (event qe)]} ∪ registeredIdentities s)
       (calls s ++ [CallGetRegistrationStatus chainID
                      (identity_FromAddress (ProviderID (event qe)))])).
Proof.
  intros Hstatus. unfold handleEvent.
  erewrite bind_run by (apply invoke_run, Hstatus). reflexivity.
Qed.

(** C6. When the beneficiary handed to [registerIdentity] is the zero
    address (which the code decides with [isZeroAddress]), it returns
    nil and leaves everything as it was: no call is made at all, so no
    submission.  So when the lookup of the old beneficiary resolves to
    the zero address, the rest of the pipeline ends there with nil. *)
Theorem registerIdentity_zero_beneficiary qe id benef s :
  isZeroAddress benef = true →
  registerIdentity qe id benef s = (None, s) ∧
  (∀ s0, getBeneficiaryFromOldRegistry id s0 = ((benef, None), s) →
         migrateAndRegister qe id s0 = (None, s)).
Proof.
  intros Hz.
  assert (registerIdentity qe id benef s = (None, s)) as Hrun.
  { unfold registerIdentity. by rewrite Hz. }
  split; [done |]. intros s0 Hget. unfold migrateAndRegister.
  by erewrite bind_run by apply Hget.
Qed.

(** C7. The status check has answered NotRegistered.  On the legacy test
    network the eligibility check is skipped: the pipeline goes straight
    on to the lookup of the old beneficiary and
    [CheckIfRegistrationBountyEligible] is never called.  Otherwise, when
    that check answers "not eligible", it is the last call (no
    beneficiary lookup, no submission) and the pipeline returns nil. *)
Theorem eligibility_gate qe s w1 :
  let id := identity_FromAddress (ProviderID (event qe)) in
  let s1 := mkRegistrar w1 (registeredIdentities s)
              (calls s ++ [CallGetRegistrationStatus chainID id]) in
  GetRegistrationStatus chainID id (world s) = ((NotRegistered, None), w1) →
  (IsTestnet3 cfg = true →
     handleEvent cfg qe s = migrateAndRegister qe id s1 ∧
     ∃ tr, calls (handleEvent cfg qe s).2 = calls s1 ++ tr ∧
           Forall (λ c, is_eligibility_check c = false) tr) ∧
  (IsTestnet3 cfg = false →
     ∀ w2, CheckIfRegistrationBountyEligible id w1 = ((false, None), w2) →
       handleEvent cfg qe s
       = (None, mkRegistrar w2 (registeredIdentities s)
                  (calls s ++ [CallGetRegistrationStatus chainID id;
                               CallCheckEligible id]))).
Proof.
  intros id s1 Hstatus.
  assert (handleEvent cfg qe s = registerIdentityIfEligible cfg qe s1) as Hrun.
  { unfold handleEvent.
    by erewrite bind_run by (apply invoke_run, Hstatus). }
  rewrite Hrun. split.
  - intros Ht.
    assert (registerIdentityIfEligible cfg qe s1 = migrateAndRegister qe id s1)
      as E.
    { unfold registerIdentityIfEligible. by rewrite Ht. }
    split; [done |]. rewrite E.
    by apply (logs_migrateAndRegister (λ c, is_eligibility_check c = false)).
  - intros Ht w2 Helig. unfold registerIdentityIfEligible. rewrite Ht. simpl.
    erewrite bind_run by (apply invoke_run, Helig). simpl.
    by rewrite <- app_assoc.
Qed.

(** C5. A non-zero beneficiary [B], and the default chain is the
    settlement chain.  If [GetChannelAddress] answers [C] and the
    submission succeeds, the calls are: [GetChannelAddress], then
    [RegisterIdentity] with the hex of [C], then [Save] with the
    identity's address and the hex of [B]; the result is nil whatever
    [Save] answers, and the provider is registered.  If
    [GetChannelAddress] answers an error, that error is the result and
    no other call is made. *)
Theorem registerIdentity_on_settlement_chain qe id B s :
  isZeroAddress B = false →
  chainID = l2chainID →
  (∀ C w1 w2 saved w3,
     GetChannelAddress chainID id (world s) = ((C, None), w1) →
     RegisterIdentity (ProviderID (event qe)) 0 None (Hex C) chainID None w1
       = (None, w2) →
     Save (Address_of id) (Hex B) w2 = (saved, w3) →
     registerIdentity qe id B s
     = (None,
        mkRegistrar w3 ({[ProviderID (event qe)]} ∪ registeredIdentities s)
          (calls s ++
             [CallGetChannelAddress chainID id;
              CallRegisterIdentity (ProviderID (event qe)) 0 None (Hex C)
                chainID None;
              CallSave (Address_of id) (Hex B)]))) ∧
  (∀ C e w1,
     GetChannelAddress chainID id (world s) = ((C, Some e), w1) →
     registerIdentity qe id B s
     = (Some e,
        mkRegistrar w1 (registeredIdentities s)
          (calls s ++ [CallGetChannelAddress chainID id]))).
Proof.
  intros Hnz Hchain.
  assert ((chainID =? l2chainID)%Z = true) as Hl2 by by apply Z.eqb_eq.
  split.
  - intros C w1 w2 saved w3 Hchannel Hsubmit Hsave.
    unfold registerIdentity. rewrite Hnz, Hl2.
    erewrite bind_run by (apply invoke_run, Hchannel). simpl.
    unfold submitRegistration.
    erewrite bind_run by (apply invoke_run, Hsubmit). simpl.
    rewrite Hl2.
    unfold mbind, M_bind, invoke, markRegistered, mret, M_ret. simpl.
    rewrite Hsave. simpl. by rewrite <- !app_assoc.
  - intros C e w1 Hchannel.
    unfold registerIdentity. rewrite Hnz, Hl2.
    erewrite bind_run by (apply invoke_run, Hchannel). reflexivity.
Qed.

(** C1, as the code has it.  The event has reached the lookup, the
    registry of the legacy chain is the new one, and [GetBeneficiary]
    answers an address together with an error.  The error is dropped:
    the pipeline goes on with the address that came with it, exactly as
    after a read without error; if that address is the zero address the
    pipeline ends with nil and without a submission. *)
Theorem legacy_read_error_is_dropped qe s s1 registry w2 benef e w3 :
  let id := identity_FromAddress (ProviderID (event qe)) in
  let s3 := mkRegistrar w3 (registeredIdentities s1)
              (calls s1 ++ [CallGetRegistryAddress l1chainID;
                            CallGetBeneficiary 5 oldRegistryAddress
                              (ToCommonAddress id)]) in
  reachesLookup cfg qe s s1 →
  GetRegistryAddress l1chainID (world s1) = ((registry, None), w2) →
  bytes_EqualFold registry newRegistryAddress = true →
  GetBeneficiary 5 oldRegistryAddress (ToCommonAddress id) w2
    = ((benef, Some e), w3) →
  getBeneficiaryFromOldRegistry id s1 = ((benef, None), s3) ∧
  handleEvent cfg qe s = registerIdentity qe id benef s3 ∧
  (isZeroAddress benef = true → handleEvent cfg qe s = (None, s3)).
Proof.
  intros id s3 Hreach Hregistry Hnew Hbenef.
  assert (getBeneficiaryFromOldRegistry id s1 = ((benef, None), s3)) as Hget.
  { unfold getBeneficiaryFromOldRegistry.
    erewrite bind_run by (apply invoke_run, Hregistry). simpl.
    rewrite Hnew.
    erewrite bind_run by (apply invoke_run, Hbenef). simpl.
    unfold s3. by rewrite <- app_assoc. }
  assert (handleEvent cfg qe s = registerIdentity qe id benef s3) as Hrun.
  { rewrite (handleEvent_reachesLookup _ _ _ Hreach). fold id.
    unfold migrateAndRegister. by erewrite bind_run by apply Hget. }
  repeat split; [done.. |].
  intros Hz. rewrite Hrun. unfold registerIdentity. by rewrite Hz.
Qed.

End PipelineFacts.

(** * Properties of the worker, the retries and the shutdown *)

Section OrchestratorFacts.
Context {W : Type}.
Context `{!Imports, !ChainFlags}.
Context `{!registrationStatusChecker W, !txer W, !multiChainAddressKeeper W,
          !bsaver W, !bc W}.
Variable cfg : ProviderRegistrarConfig.

Implicit Types (s : System (W := W)) (r : Registrar (W := W)).
Implicit Types (qe : queuedEvent) (l : Label) (ls : list Label).

Lemma int_wrap_ok (n : Z) : int_ok n → int_wrap n = n.
Proof.
  unfold int_ok, int_min, int_max, int_wrap.
  change (2 ^ 64)%Z with (2 * 2 ^ 63)%Z.
  generalize (2 ^ 63)%Z. intros h Hn.
  rewrite Z.mod_small; lia.
Qed.

(** *** Admission *)

Lemma needsHandling_spec qe r :
  needsHandling qe r = true ↔
  Status (event qe) = servicestate_Running ∧
  ProviderID (event qe) ∉ registeredIdentities r.
Proof.
  unfold needsHandling.
  destruct (String.eqb_spec (Status (event qe)) servicestate_Running) as [Hs|Hs];
    simpl.
  - case_bool_decide; intuition congruence.
  - intuition congruence.
Qed.

(** *** What a step leaves alone *)

Lemma handleEventWithRetries_frame qe s err s' :
  handleEventWithRetries cfg qe s = (err, s') →
  once s' = once s ∧ stopChan s' = stopChan s ∧ closes s' = closes s ∧
  queue s' = queue s ∧ worker s' = worker s.
Proof.
  unfold handleEventWithRetries.
  destruct (handleEvent cfg qe (pr s)) as [[e|] r1].
  - destruct (retries qe <? MaxRetries cfg)%Z; by intros [= _ <-].
  - by intros [= _ <-].
Qed.

Lemma startTurn_latch sel s :
  once (startTurn cfg sel s) = once s ∧
  stopChan (startTurn cfg sel s) = stopChan s ∧
  closes (startTurn cfg sel s) = closes s.
Proof.
  destruct sel as [|ev]; simpl; [done |].
  destruct (needsHandling ev (pr s)); simpl; [| done].
  destruct (handleEventWithRetries cfg ev s) as [err s'] eqn:E.
  apply handleEventWithRetries_frame in E as (? & ? & ? & _).
  by destruct err.
Qed.

Lemma step_latch l s s' :
  step cfg l s = Next s' → is_stop l = false →
  once s' = once s ∧ stopChan s' = stopChan s ∧ closes s' = closes s.
Proof.
  destruct l; simpl; try discriminate.
  - destruct (worker s); by intros [= <-].
  - by intros [= <-].
  - destruct (worker s); try discriminate.
    destruct (queue s) as [|qe rest]; try discriminate.
    intros [= <-] _. apply (startTurn_latch (Received qe) (set_queue rest s)).
  - destruct (worker s); try discriminate.
    destruct (stopChan s) eqn:Hc; try discriminate. by intros [= <-].
  - destruct (timers s !! i) as [[qe d]|]; try discriminate. by intros [= <-].
  - destruct (stopChan s) eqn:Hc; try discriminate.
    destruct (timers s !! i) as [[qe d]|]; try discriminate. by intros [= <-].
Qed.



(** *** The latch *)

Lemma stop_consistent s :
  latch_consistent s →
  ∃ s', stop s = Next s' ∧ latch_consistent s' ∧
        once s' = true ∧ stopChan s' = Closed ∧ closes s' = 1 ∧
        pr s' = pr s ∧ queue s' = queue s ∧ timers s' = timers s ∧
        worker s' = worker s ∧ scheduled s' = scheduled s.
Proof.
  unfold latch_consistent, stop, once_Do, close_stopChan.
  intros [(Ho & Hc & Hn)|(Ho & Hc & Hn)]; rewrite Ho; simpl.
  - rewrite Hc. eexists. split; [done |]. simpl. rewrite Hn. tauto.
  - exists s. tauto.
Qed.

Lemma stop_again s : once s = true → stop s = Next s.
Proof. intros Ho. unfold stop, once_Do. by rewrite Ho. Qed.

Lemma step_consistent l s :
  latch_consistent s →
  match step cfg l s with
  | Next s' =>
      latch_consistent s' ∧
      closes s' = Nat.min 1 (closes s + if is_stop l then 1 else 0)
  | Panic _ => False
  | Disabled => True
  end.
Proof.
  intros Hinv. destruct (is_stop l) eqn:Hl.
  - destruct l; try discriminate. change (step cfg NodeStopped s) with (stop s).
    destruct (stop_consistent s Hinv) as (s' & -> & Hinv' & _ & _ & Hn & _).
    split; [done |]. rewrite Hn. lia.
  - destruct (step cfg l s) as [s'|msg|] eqn:Hstep; [| | done].
    + destruct (step_latch _ _ _ Hstep Hl) as (Ho & Hc & Hn).
      unfold latch_consistent in *. rewrite Ho, Hc, Hn. split; [done | lia].
    + destruct l; simpl in Hstep; try discriminate;
        repeat (match type of Hstep with
                | context [match ?x with _ => _ end] => destruct x
                end; try discriminate).
Qed.

Lemma run_consistent ls s :
  latch_consistent s →
  match run cfg ls s with
  | Next s' =>
      latch_consistent s' ∧ closes s' = Nat.min 1 (closes s + stops_in ls)
  | Panic _ => False
  | Disabled => True
  end.
Proof.
  revert s. induction ls as [|l ls IH]; intros s Hinv; cbn [run stops_in].
  - split; [done |]. destruct Hinv as [(_ & _ & ->)|(_ & _ & ->)]; done.
  - pose proof (step_consistent l s Hinv) as Hstep.
    destruct (step cfg l s) as [s1|msg|]; [| done..].
    destruct Hstep as [Hinv1 Hn1].
    pose proof (IH s1 Hinv1) as Hrun.
    destruct (run cfg ls s1) as [s'|msg|]; [| done..].
    destruct Hrun as [Hinv' Hn']. split; [done |].
    destruct (is_stop l); lia.
Qed.

(** *** One event, retried *)

Lemma retry_run ev n : ∀ (k : Z) s r',
  worker s = Running →
  queue s = [mkQueued ev k] →
  timers s = [] →
  needsHandling (mkQueued ev k) (pr s) = true →
  (int_min ≤ k)%Z →
  MaxRetries cfg = (k + Z.of_nat n)%Z →
  (MaxRetries cfg ≤ int_max)%Z →
  attempts cfg n ev (pr s) = Some r' →
  run cfg (retrySchedule n) s
  = Next (mkSystem r' (once s) (stopChan s) [] [] Running (closes s)
            (scheduled s ++ retried ev k n)).
Proof.
  induction n as [|n IH]; intros k s r' Hw Hq Ht Hadmit Hk Hmax Hbound Hatt.
  - simpl in Hatt. simpl. rewrite Hw, Hq. simpl. rewrite Hadmit. simpl.
    unfold handleEventWithRetries. simpl.
    rewrite (handleEvent_retries cfg ev k 0).
    destruct (handleEvent cfg (mkQueued ev 0) (pr s)) as [[e|] r1];
      [discriminate |].
    injection Hatt as ->. simpl. unfold set_pr. simpl.
    by rewrite Ht, Hw, app_nil_r.
  - simpl in Hatt. simpl. rewrite Hw, Hq. simpl. rewrite Hadmit. simpl.
    unfold handleEventWithRetries. simpl.
    rewrite (handleEvent_retries cfg ev k 0).
    destruct (handleEvent cfg (mkQueued ev 0) (pr s)) as [[e|] r1] eqn:Hrun;
      [| discriminate].
    assert ((k <? MaxRetries cfg)%Z = true) as -> by (apply Z.ltb_lt; lia).
    rewrite int_wrap_ok by (unfold int_ok; lia).
    simpl. rewrite Ht. simpl.
    rewrite (IH (k + 1)%Z _ r'); simpl; try done; try lia.
    + by rewrite <- app_assoc.
    + apply handleEvent_error in Hrun.
      rewrite <- Hadmit. unfold needsHandling. simpl. by rewrite Hrun.
Qed.

(** *** The claims about the worker, the retries and the shutdown *)

(** C4. [needsHandling] admits an event exactly when its status is
    "Running" and its provider is not in [registeredIdentities].  When the
    worker receives an event that fails either check, the event leaves
    the queue and nothing else changes: no collaborator is called.  So a
    turn of the worker that changes the registrar is a turn on an event
    that passed both checks. *)
Theorem admission_filter qe rest s :
  (needsHandling qe (pr s) = true ↔
     Status (event qe) = servicestate_Running ∧
     ProviderID (event qe) ∉ registeredIdentities (pr s)) ∧
  (Status (event qe) ≠ servicestate_Running ∨
   ProviderID (event qe) ∈ registeredIdentities (pr s) →
     needsHandling qe (pr s) = false ∧
     (worker s = Running → queue s = qe :: rest →
      step cfg WorkerReceives s = Next (set_queue rest s))) ∧
  (worker s = Running → queue s = qe :: rest →
   ∀ s', step cfg WorkerReceives s = Next s' → pr s' ≠ pr s →
     Status (event qe) = servicestate_Running ∧
     ProviderID (event qe) ∉ registeredIdentities (pr s)).
Proof.
  pose proof (needsHandling_spec qe (pr s)) as Hspec.
  split; [done |]. split.
  - intros Hreject.
    assert (needsHandling qe (pr s) = false) as Hno.
    { destruct (needsHandling qe (pr s)); [| done].
      destruct Hspec as [Hspec _]. destruct (Hspec eq_refl). tauto. }
    split; [done |]. intros Hw Hq. simpl. rewrite Hw, Hq. simpl.
    by rewrite Hno.
  - intros Hw Hq s' Hstep Hchanged. apply Hspec.
    destruct (needsHandling qe (pr s)) eqn:Hadmit; [done |].
    simpl in Hstep. rewrite Hw, Hq in Hstep. simpl in Hstep.
    rewrite Hadmit in Hstep. simpl in Hstep. injection Hstep as <-.
    by destruct Hchanged.
Qed.


(** C8. (1) The worker receives an admitted event, the pipeline fails on
    it and the retry count is below [MaxRetries]: the event, its retry
    count one higher, is handed to [delayedRequeue] with the configured
    delay, no error is returned and the worker keeps running; when the
    timer fires, the event is sent to the queue again.  (2) With
    [MaxRetries] = [n] and a pipeline that fails [n] times on the event
    and then succeeds, the worker and the timers, taking turns, end with
    the worker running, the queue and the timers empty, and exactly the
    [n] retries with counts 1 to [n] scheduled. *)
Theorem retry_below_maximum :
  (∀ qe rest s e r',
     worker s = Running →
     queue s = qe :: rest →
     needsHandling qe (pr s) = true →
     handleEvent cfg qe (pr s) = (Some e, r') →
     (retries qe < MaxRetries cfg)%Z →
     int_ok (retries qe) → int_ok (MaxRetries cfg) →
     let qe' := mkQueued (event qe) (retries qe + 1) in
     let waiting := timers s ++ [(qe', DelayBetweenRetries cfg)] in
     handleEventWithRetries cfg qe s
     = (None, go_delayedRequeue cfg qe' (set_pr r' s)) ∧
     step cfg WorkerReceives s
     = Next (mkSystem r' (once s) (stopChan s) rest waiting Running
               (closes s) (scheduled s ++ [qe'])) ∧
     step cfg (TimerFires (length (timers s)))
       (mkSystem r' (once s) (stopChan s) rest waiting Running
          (closes s) (scheduled s ++ [qe']))
     = Next (mkSystem r' (once s) (stopChan s) (rest ++ [qe']) (timers s)
               Running (closes s) (scheduled s ++ [qe']))) ∧
  (∀ (n : nat) ev s r',
     worker s = Running →
     queue s = [mkQueued ev 0] →
     timers s = [] →
     needsHandling (mkQueued ev 0) (pr s) = true →
     MaxRetries cfg = Z.of_nat n →
     int_ok (MaxRetries cfg) →
     attempts cfg n ev (pr s) = Some r' →
     run cfg (retrySchedule n) s
     = Next (mkSystem r' (once s) (stopChan s) [] [] Running (closes s)
               (scheduled s ++ retried ev 0 n)) ∧
     length (retried ev 0 n) = n).
Proof.
  split.
  - intros qe rest s e r' Hw Hq Hadmit Hfail Hlt Hk Hmax qe' waiting.
    assert ((retries qe <? MaxRetries cfg)%Z = true) as Hltb
      by by apply Z.ltb_lt.
    assert (int_wrap (retries qe + 1) = (retries qe + 1)%Z) as Hwrap.
    { apply int_wrap_ok. unfold int_ok in *. lia. }
    assert (∀ s0, pr s0 = pr s →
              handleEventWithRetries cfg qe s0
              = (None, go_delayedRequeue cfg qe' (set_pr r' s0))) as Hret.
    { intros s0 Hpr. unfold handleEventWithRetries.
      by rewrite Hpr, Hfail, Hltb, Hwrap. }
    split; [by apply Hret |]. split.
    + simpl. rewrite Hw, Hq. simpl. rewrite Hadmit. simpl.
      rewrite (Hret (set_queue rest s)) by done. simpl.
      unfold go_delayedRequeue. simpl. by rewrite Hw.
    + simpl. unfold waiting.
      rewrite lookup_app_r, Nat.sub_diag by done. simpl.
      unfold set_queue, set_timers. simpl. do 3 f_equal.
      clear. induction (timers s) as [|t ts IH]; simpl; [done | by rewrite IH].
  - intros n ev s r' Hw Hq Ht Hadmit Hmax Hbound Hatt. split.
    + apply retry_run; try done; unfold int_ok, int_min in *; lia.
    + clear. generalize 0%Z. induction n as [|n IH]; intros k; simpl;
        [done | by rewrite IH].
Qed.

(** C9. Take any steps from a new registrar, with [stop] called any
    number of times among them.  There is never a panic, and
    [close(pr.stopChan)] has run once if [stop] was called at all and
    never otherwise.  Once [stop] has been called, calling it again
    changes nothing.  In particular [stop], called [n + 1] times in a
    row on a new registrar, closes the channel exactly once. *)
Theorem stop_is_idempotent (w : W) :
  (∀ ls,
     match run cfg ls (NewProviderRegistrar w) with
     | Panic _ => False
     | Disabled => True
     | Next s =>
         closes s = Nat.min 1 (stops_in ls) ∧
         (stopChan s = Closed ↔ 0 < stops_in ls) ∧
         (0 < stops_in ls → stop s = Next s)
     end) ∧
  (∀ n : nat,
     run cfg (replicate (S n) NodeStopped) (NewProviderRegistrar w)
     = Next (mkSystem (mkRegistrar w ∅ []) true Closed [] [] NotStarted 1 [])).
Proof.
  assert (latch_consistent (NewProviderRegistrar w)) as Hnew
    by (left; done).
  split.
  - intros ls. pose proof (run_consistent ls _ Hnew) as Hrun.
    destruct (run cfg ls (NewProviderRegistrar w)) as [s|msg|]; [| done..].
    destruct Hrun as [Hinv Hn]. unfold NewProviderRegistrar in Hn.
    cbn [closes] in Hn. split; [lia |].
    destruct Hinv as [(Ho & Hc & Hz)|(Ho & Hc & Hz)]; rewrite Hc.
    + split; [split; [done | lia] | lia].
    + split; [split; [lia | done] |]. intros _. by apply stop_again.
  - intros n. simpl. induction n as [|n IH]; [done |].
    simpl. simpl in IH. exact IH.
Qed.

(** C10. The event has reached the lookup and [GetRegistryAddress] for
    the legacy chain answers an error.  [handleEvent] returns that error
    (inside the "could not get registry address" error) after that one
    call, with no beneficiary read and no submission.  The error counts
    like any other: below [MaxRetries] a retry is scheduled, otherwise
    it comes back wrapped as "max attempts reached". *)
Theorem registry_address_error_propagates qe s r1 a e w2 :
  reachesLookup cfg qe (pr s) r1 →
  GetRegistryAddress l1chainID (world r1) = ((a, Some e), w2) →
  let err := ErrRegistryAddress l1chainID e in
  let r2 := mkRegistrar w2 (registeredIdentities r1)
              (calls r1 ++ [CallGetRegistryAddress l1chainID]) in
  handleEvent cfg qe (pr s) = (Some err, r2) ∧
  ((retries qe < MaxRetries cfg)%Z →
     handleEventWithRetries cfg qe s
     = (None,
        go_delayedRequeue cfg
          (mkQueued (event qe) (int_wrap (retries qe + 1))) (set_pr r2 s))) ∧
  ((MaxRetries cfg ≤ retries qe)%Z →
     handleEventWithRetries cfg qe s
     = (Some (ErrWrap err "max attempts reached for provider registration"),
        set_pr r2 s)).
Proof.
  intros Hreach Hregistry err r2.
  assert (handleEvent cfg qe (pr s) = (Some err, r2)) as Hrun.
  { rewrite (handleEvent_reachesLookup _ _ _ _ Hreach).
    unfold migrateAndRegister, getBeneficiaryFromOldRegistry.
    erewrite bind_run; [| erewrite bind_run by (apply invoke_run, Hregistry);
                          reflexivity].
    reflexivity. }
  split; [done |]. unfold handleEventWithRetries. rewrite Hrun. split.
  - intros Hlt. apply Z.ltb_lt in Hlt. by rewrite Hlt.
  - intros Hge. apply Z.ltb_ge in Hge. by rewrite Hge.
Qed.

End OrchestratorFacts.

(** * The properties on scripted collaborators *)

Module Scenarios.
Import Mock.

(** A status check that answers Registered: one call, provider cached. *)
Lemma handleEvent_already_registered_witness :
  handleEvent cfg (running provider) (fresh (statusWorld [(Registered, None)]))
  = (None,
     mkRegistrar quiet ({[provider]} ∪ ∅)
       [CallGetRegistrationStatus 137 providerIdentity]).
Proof.
  exact (handleEvent_already_registered cfg (running provider)
           (fresh (statusWorld [(Registered, None)])) quiet eq_refl).
Defined.

(** The zero address as beneficiary: nothing happens. *)
Lemma registerIdentity_zero_beneficiary_witness :
  registerIdentity (running provider) providerIdentity zeroAddress (fresh quiet)
  = (None, fresh quiet).
Proof.
  exact (proj1 (registerIdentity_zero_beneficiary (running provider)
                  providerIdentity zeroAddress (fresh quiet) eq_refl)).
Defined.

(** On the test network the pipeline goes from the status check straight
    to the lookup; elsewhere "not eligible" ends it after two calls. *)
Lemma eligibility_gate_witness :
  handleEvent cfgTestnet (running provider)
    (fresh (statusWorld [(NotRegistered, None)]))
  = migrateAndRegister (running provider) providerIdentity
      (mkRegistrar quiet ∅ [CallGetRegistrationStatus 137 providerIdentity]) ∧
  handleEvent cfg (running provider)
    (fresh (mkWorld [(NotRegistered, None)] [(false, None)] [] [] [] [] []))
  = (None,
     mkRegistrar quiet ∅
       [CallGetRegistrationStatus 137 providerIdentity;
        CallCheckEligible providerIdentity]).
Proof.
  split.
  - exact (proj1 (proj1 (eligibility_gate cfgTestnet (running provider)
                           (fresh (statusWorld [(NotRegistered, None)]))
                           quiet eq_refl) eq_refl)).
  - exact (proj2 (eligibility_gate cfg (running provider)
                    (fresh (mkWorld [(NotRegistered, None)] [(false, None)]
                              [] [] [] [] []))
                    (mkWorld [] [(false, None)] [] [] [] [] []) eq_refl)
             eq_refl quiet eq_refl).
Defined.

(** Default chain = settlement chain: the submission gets the channel
    address, the store gets the beneficiary, and a failing store does not
    matter; a failing channel lookup ends the attempt. *)
Lemma registerIdentity_on_settlement_chain_witness :
  registerIdentity (running provider) providerIdentity addrB
    (fresh (mkWorld [] [] [] [] [(addrC, None)] [None] [Some boom]))
  = (None,
     mkRegistrar quiet ({[provider]} ∪ ∅)
       [CallGetChannelAddress 137 providerIdentity;
        CallRegisterIdentity provider 0 None (Hex addrC) 137 None;
        CallSave provider (Hex addrB)]) ∧
  registerIdentity (running provider) providerIdentity addrB
    (fresh (mkWorld [] [] [] [] [(zeroAddress, Some boom)] [] []))
  = (Some boom,
     mkRegistrar quiet ∅ [CallGetChannelAddress 137 providerIdentity]).
Proof.
  split.
  - exact (proj1 (registerIdentity_on_settlement_chain (running provider)
                    providerIdentity addrB
                    (fresh (mkWorld [] [] [] [] [(addrC, None)] [None] [Some boom]))
                    eq_refl eq_refl)
             addrC
             (mkWorld [] [] [] [] [] [None] [Some boom])
             (mkWorld [] [] [] [] [] [] [Some boom])
             (Some boom) quiet eq_refl eq_refl eq_refl).
  - exact (proj2 (registerIdentity_on_settlement_chain (running provider)
                    providerIdentity addrB
                    (fresh (mkWorld [] [] [] [] [(zeroAddress, Some boom)] [] []))
                    eq_refl eq_refl)
             zeroAddress boom quiet eq_refl).
Defined.

(** The read of the old beneficiary fails and answers the zero address:
    the pipeline ends with nil after the four calls, without a
    submission. *)
Lemma legacy_read_error_is_dropped_witness :
  handleEvent cfg (running provider)
    (fresh (migrationWorld (zeroAddress, Some boom)))
  = (None,
     mkRegistrar migrationWorld3 ∅
       [CallGetRegistrationStatus 137 providerIdentity;
        CallCheckEligible providerIdentity;
        CallGetRegistryAddress 5;
        CallGetBeneficiary 5 oldRegistryAddress (ToCommonAddress providerIdentity)]).
Proof.
  refine (proj2 (proj2 (legacy_read_error_is_dropped cfg (running provider)
            (fresh (migrationWorld (zeroAddress, Some boom)))
            (atLookup (migrationWorld1 (zeroAddress, Some boom)))
            newRegistryAddress
            (migrationWorld2 (zeroAddress, Some boom))
            zeroAddress boom migrationWorld3 _ eq_refl eq_refl eq_refl)) eq_refl).
  exists (mkWorld [] [(true, None)] [(newRegistryAddress, None)]
            [(zeroAddress, Some boom)] [(addrC, None)] [None] [None]).
  split; [reflexivity |].
  exists (migrationWorld1 (zeroAddress, Some boom)).
  split; reflexivity.
Defined.

(** C1 as the spec has it fails: the read of the old beneficiary
    answers an error together with the address [addrB], which is not
    zero, and the pipeline goes on to submit the registration. *)
Lemma legacy_read_error_then_submission :
  reachesLookup cfg (running provider)
    (fresh (migrationWorld (addrB, Some boom)))
    (atLookup (migrationWorld1 (addrB, Some boom))) ∧
  GetRegistryAddress l1chainID (migrationWorld1 (addrB, Some boom))
    = ((newRegistryAddress, None), migrationWorld2 (addrB, Some boom)) ∧
  bytes_EqualFold newRegistryAddress newRegistryAddress = true ∧
  GetBeneficiary 5 oldRegistryAddress (ToCommonAddress providerIdentity)
    (migrationWorld2 (addrB, Some boom))
    = ((addrB, Some boom), migrationWorld3) ∧
  isZeroAddress addrB = false ∧
  (handleEvent cfg (running provider)
     (fresh (migrationWorld (addrB, Some boom)))).1 = None ∧
  calls (handleEvent cfg (running provider)
           (fresh (migrationWorld (addrB, Some boom)))).2
  = [CallGetRegistrationStatus 137 providerIdentity;
     CallCheckEligible providerIdentity;
     CallGetRegistryAddress 5;
     CallGetBeneficiary 5 oldRegistryAddress (ToCommonAddress providerIdentity);
     CallGetChannelAddress 137 providerIdentity;
     CallRegisterIdentity provider 0 None (Hex addrC) 137 None;
     CallSave provider (Hex addrB)] ∧
  ¬ Forall (λ c, is_submission c = false)
      (calls (handleEvent cfg (running provider)
                (fresh (migrationWorld (addrB, Some boom)))).2).
Proof.
  assert (calls (handleEvent cfg (running provider)
                   (fresh (migrationWorld (addrB, Some boom)))).2
          = [CallGetRegistrationStatus 137 providerIdentity;
             CallCheckEligible providerIdentity;
             CallGetRegistryAddress 5;
             CallGetBeneficiary 5 oldRegistryAddress
               (ToCommonAddress providerIdentity);
             CallGetChannelAddress 137 providerIdentity;
             CallRegisterIdentity provider 0 None (Hex addrC) 137 None;
             CallSave provider (Hex addrB)]) as Hcalls by reflexivity.
  split.
  { exists (mkWorld [] [(true, None)] [(newRegistryAddress, None)]
              [(addrB, Some boom)] [(addrC, None)] [None] [None]).
    split; [reflexivity |].
    exists (migrationWorld1 (addrB, Some boom)). split; reflexivity. }
  repeat (split; [reflexivity |]).
  rewrite Hcalls. intros Hall.
  rewrite !Forall_cons in Hall. simpl in Hall.
  destruct Hall as (_ & _ & _ & _ & _ & Hsub & _). discriminate Hsub.
Qed.

(** An event with status "Stopped" leaves the queue and nothing else
    happens. *)
Lemma admission_filter_witness :
  needsHandling (mkQueued (mkEvent provider "Stopped") 0) (fresh quiet) = false ∧
  step cfg WorkerReceives
    (started quiet [mkQueued (mkEvent provider "Stopped") 0; running provider])
  = Next (started quiet [running provider]).
Proof.
  pose proof (proj1 (proj2 (admission_filter cfg
                (mkQueued (mkEvent provider "Stopped") 0) [running provider]
                (started quiet [mkQueued (mkEvent provider "Stopped") 0;
                                running provider])))) as H.
  destruct H as [Hno Hstep].
  - left. discriminate.
  - split; [exact Hno | exact (Hstep eq_refl eq_refl)].
Defined.


(** Two retries allowed; the status check fails twice and then answers
    Registered: two retries are scheduled, the worker keeps running and
    the provider ends up registered. *)
Lemma retry_below_maximum_witness :
  step cfg WorkerReceives
    (started (statusWorld [(NotRegistered, Some boom)]) [running provider])
  = Next (mkSystem
            (mkRegistrar quiet ∅ [CallGetRegistrationStatus 137 providerIdentity])
            false Open []
            [(mkQueued (mkEvent provider "Running") 1, 10000000%Z)]
            Running 0 [mkQueued (mkEvent provider "Running") 1]) ∧
  run cfg (retrySchedule 2)
    (started (statusWorld [(NotRegistered, Some boom); (NotRegistered, Some boom);
                           (Registered, None)])
       [running provider])
  = Next (mkSystem
            (mkRegistrar quiet ({[provider]} ∪ ∅)
               [CallGetRegistrationStatus 137 providerIdentity;
                CallGetRegistrationStatus 137 providerIdentity;
                CallGetRegistrationStatus 137 providerIdentity])
            false Open [] [] Running 0
            [mkQueued (mkEvent provider "Running") 1;
             mkQueued (mkEvent provider "Running") 2]).
Proof.
  split.
  - refine (proj1 (proj2 (proj1 (retry_below_maximum cfg)
              (running provider) []
              (started (statusWorld [(NotRegistered, Some boom)])
                 [running provider])
              (ErrWrap boom "could not check registration status on BC")
              (mkRegistrar quiet ∅
                 [CallGetRegistrationStatus 137 providerIdentity])
              eq_refl eq_refl eq_refl eq_refl _ _ _))).
    + simpl. lia.
    + by vm_compute.
    + by vm_compute.
  - refine (proj1 (proj2 (retry_below_maximum cfg) 2 (mkEvent provider "Running")
              (started (statusWorld [(NotRegistered, Some boom);
                                     (NotRegistered, Some boom);
                                     (Registered, None)])
                 [running provider])
              (mkRegistrar quiet ({[provider]} ∪ ∅)
                 [CallGetRegistrationStatus 137 providerIdentity;
                  CallGetRegistrationStatus 137 providerIdentity;
                  CallGetRegistrationStatus 137 providerIdentity])
              eq_refl eq_refl eq_refl eq_refl eq_refl _ eq_refl)).
    by vm_compute.
Defined.

(** The registry lookup for the legacy chain fails: with retries left
    the event is scheduled again, the error does not get lost. *)
Lemma registry_address_error_propagates_witness :
  handleEvent cfg (running provider)
    (fresh (mkWorld [(NotRegistered, None)] [(true, None)]
              [(zeroAddress, Some boom)] [] [] [] []))
  = (Some (ErrRegistryAddress 5 boom),
     mkRegistrar quiet ∅
       [CallGetRegistrationStatus 137 providerIdentity;
        CallCheckEligible providerIdentity;
        CallGetRegistryAddress 5]).
Proof.
  refine (proj1 (registry_address_error_propagates cfg (running provider)
            (started (mkWorld [(NotRegistered, None)] [(true, None)]
                        [(zeroAddress, Some boom)] [] [] [] [])
               [running provider])
            (atLookup (mkWorld [] [] [(zeroAddress, Some boom)] [] [] [] []))
            zeroAddress boom quiet _ eq_refl)).
  exists (mkWorld [] [(true, None)] [(zeroAddress, Some boom)] [] [] [] []).
  split; [reflexivity |].
  exists (mkWorld [] [] [(zeroAddress, Some boom)] [] [] [] []).
  split; reflexivity.
Defined.

End Scenarios.

(** * More about the pipeline *)

Section PipelineMore.
Context {W : Type}.
Context `{!Imports, !ChainFlags}.
Context `{!registrationStatusChecker W, !txer W, !multiChainAddressKeeper W,
          !bsaver W, !bc W}.
Variable cfg : ProviderRegistrarConfig.

Implicit Types (s : Registrar (W := W)) (qe : queuedEvent) (id : Identity).

(** Every path through [handleEvent], one goal per path: the answers of
    the collaborators and the tests of the code are taken apart in the
    order they come. *)
Ltac paths :=
  unfold handleEvent, registerIdentityIfEligible, migrateAndRegister,
    getBeneficiaryFromOldRegistry, registerIdentity, submitRegistration,
    mbind, M_bind, mret, M_ret, invoke, markRegistered;
  repeat (match goal with
          | |- context [GetRegistrationStatus ?a ?b ?w] =>
              destruct (GetRegistrationStatus a b w) as [[[|] [?|]] ?] eqn:?
          | |- context [CheckIfRegistrationBountyEligible ?a ?w] =>
              destruct (CheckIfRegistrationBountyEligible a w)
                as [[[|] [?|]] ?] eqn:?
          | |- context [GetRegistryAddress ?a ?w] =>
              destruct (GetRegistryAddress a w) as [[? [?|]] ?] eqn:?
          | |- context [GetBeneficiary ?a ?b ?c ?w] =>
              destruct (GetBeneficiary a b c w) as [[? ?] ?] eqn:?
          | |- context [GetChannelAddress ?a ?b ?w] =>
              destruct (GetChannelAddress a b w) as [[? [?|]] ?] eqn:?
          | |- context [RegisterIdentity ?a ?b ?c ?d ?e ?f ?w] =>
              destruct (RegisterIdentity a b c d e f w) as [[?|] ?] eqn:?
          | |- context [Save ?a ?b ?w] =>
              destruct (Save a b w) as [? ?] eqn:?
          | |- context [IsTestnet3 cfg] => destruct (IsTestnet3 cfg) eqn:?
          | |- context [bytes_EqualFold ?a ?b] =>
              destruct (bytes_EqualFold a b) eqn:?
          | |- context [isZeroAddress ?a] => destruct (isZeroAddress a) eqn:?
          | |- context [(chainID =? l2chainID)%Z] =>
              destruct (chainID =? l2chainID)%Z eqn:?
          end; simpl).

(** X1. One run of the pipeline makes at most seven calls, and at most one of
    them is a submission: for the provider of the event, with stake 0, no
    fee, the default chain and no referral token. *)
Theorem handleEvent_submits_at_most_once qe s :
  ∃ tr,
    calls (handleEvent cfg qe s).2 = calls s ++ tr ∧
    length tr ≤ 7 ∧
    (submissions tr = [] ∨
     ∃ beneficiary,
       submissions tr
       = [CallRegisterIdentity (ProviderID (event qe)) 0 None beneficiary
            chainID None]).
Proof.
  paths;
    (eexists; split; [rewrite <- ?app_assoc; simpl; reflexivity |];
     split; [simpl; lia |]; simpl; eauto).
Qed.

(** X2. A run of the pipeline either leaves [registeredIdentities] as it is,
    or returns nil and adds exactly the provider of the event; a run that
    returns an error registers nobody. *)
Theorem handleEvent_registers_only_on_success qe s :
  let r := handleEvent cfg qe s in
  (registeredIdentities r.2 = registeredIdentities s ∨
   (r.1 = None ∧
    registeredIdentities r.2
    = {[ProviderID (event qe)]} ∪ registeredIdentities s)) ∧
  (r.1 ≠ None → registeredIdentities r.2 = registeredIdentities s) ∧
  registeredIdentities s ⊆ registeredIdentities r.2.
Proof.
  cbv zeta. paths; (split; [| split]); try tauto; try done; try set_solver.
Qed.

(** X3. A run that submitted the registration and returned nil has put the
    provider into [registeredIdentities]; and a run that changed
    [registeredIdentities] returned nil after either a status check that
    was its only call or a submission. *)
Theorem handleEvent_caches_what_it_submits qe s tr :
  let r := handleEvent cfg qe s in
  calls r.2 = calls s ++ tr →
  (r.1 = None → submissions tr ≠ [] →
   registeredIdentities r.2
   = {[ProviderID (event qe)]} ∪ registeredIdentities s) ∧
  (registeredIdentities r.2 ≠ registeredIdentities s →
   r.1 = None ∧ (length tr = 1 ∨ submissions tr ≠ [])).
Proof.
  cbv zeta. paths; rewrite <- ?app_assoc; simpl;
    intros Htr; apply app_inv_head in Htr; subst tr; simpl;
    (split;
       [intros ? ?; done
       | intros ?; first [done | split; [done |]; first [by left | by right]]]).
Qed.

(** X4. The status check or the eligibility check answers an error: the error
    comes back wrapped, it was the last call, and nothing is looked up or
    submitted. *)
Theorem early_errors_end_the_pipeline qe s :
  let id := identity_FromAddress (ProviderID (event qe)) in
  (∀ st e w1,
     GetRegistrationStatus chainID id (world s) = ((st, Some e), w1) →
     handleEvent cfg qe s
     = (Some (ErrWrap e "could not check registration status on BC"),
        mkRegistrar w1 (registeredIdentities s)
          (calls s ++ [CallGetRegistrationStatus chainID id]))) ∧
  (∀ w1 eligible e w2,
     IsTestnet3 cfg = false →
     GetRegistrationStatus chainID id (world s) = ((NotRegistered, None), w1) →
     CheckIfRegistrationBountyEligible id w1 = ((eligible, Some e), w2) →
     handleEvent cfg qe s
     = (Some (ErrWrap e "could not check eligibility for auto-registration"),
        mkRegistrar w2 (registeredIdentities s)
          (calls s ++ [CallGetRegistrationStatus chainID id;
                       CallCheckEligible id]))).
Proof.
  intros id. split.
  - intros st e w1 Hstatus. unfold handleEvent.
    by erewrite bind_run by (apply invoke_run, Hstatus).
  - intros w1 eligible e w2 Ht Hstatus Helig. unfold handleEvent.
    erewrite bind_run by (apply invoke_run, Hstatus). simpl.
    unfold registerIdentityIfEligible. rewrite Ht. simpl.
    erewrite bind_run by (apply invoke_run, Helig). simpl.
    by rewrite <- app_assoc.
Qed.

(** X5. The registry of the legacy chain is not the new registry: the old
    beneficiary is not read, the beneficiary is the zero address and the
    pipeline ends with nil, without a submission.  That [isZeroAddress]
    accepts the zero address is a fact about [bytes.EqualFold]. *)
Theorem no_migration_no_submission qe s s1 registry w2 :
  isZeroAddress zeroAddress = true →
  reachesLookup cfg qe s s1 →
  GetRegistryAddress l1chainID (world s1) = ((registry, None), w2) →
  bytes_EqualFold registry newRegistryAddress = false →
  handleEvent cfg qe s
  = (None,
     mkRegistrar w2 (registeredIdentities s1)
       (calls s1 ++ [CallGetRegistryAddress l1chainID])).
Proof.
  intros Hzero Hreach Hregistry Hother.
  rewrite (handleEvent_reachesLookup _ _ _ _ Hreach).
  unfold migrateAndRegister, getBeneficiaryFromOldRegistry.
  erewrite bind_run; [| erewrite bind_run by (apply invoke_run, Hregistry);
                        simpl; rewrite Hother; reflexivity].
  simpl. unfold registerIdentity.
  unfold zeroAddress in Hzero. simpl in Hzero. by rewrite Hzero.
Qed.

(** X6. A non-zero beneficiary [B] and a default chain that is not the
    settlement chain: the submission is the only call, it carries the hex
    of [B] itself, and nothing is saved.  When it succeeds the provider is
    registered; when it fails the error comes back wrapped and the provider
    is not registered. *)
Theorem registerIdentity_off_settlement_chain qe id B s reply w1 :
  isZeroAddress B = false →
  chainID ≠ l2chainID →
  RegisterIdentity (ProviderID (event qe)) 0 None (Hex B) chainID None (world s)
    = (reply, w1) →
  let submission :=
    CallRegisterIdentity (ProviderID (event qe)) 0 None (Hex B) chainID None in
  registerIdentity qe id B s
  = match reply with
    | None =>
        (None,
         mkRegistrar w1 ({[ProviderID (event qe)]} ∪ registeredIdentities s)
           (calls s ++ [submission]))
    | Some e =>
        (Some (ErrWrap e "could not register identity on BC"),
         mkRegistrar w1 (registeredIdentities s) (calls s ++ [submission]))
    end.
Proof.
  intros Hnz Hchain Hsubmit submission.
  assert ((chainID =? l2chainID)%Z = false) as Hl2 by by apply Z.eqb_neq.
  unfold registerIdentity. rewrite Hnz, Hl2. unfold submitRegistration.
  erewrite bind_run by (apply invoke_run, Hsubmit).
  destruct reply as [e|]; simpl; [done |]. by rewrite Hl2.
Qed.

(** X7. On the settlement chain, a submission that fails: the error comes back
    wrapped after the channel lookup and the submission, nothing is saved
    and the provider is not registered. *)
Theorem failed_submission_saves_nothing qe id B s C w1 e w2 :
  isZeroAddress B = false →
  chainID = l2chainID →
  GetChannelAddress chainID id (world s) = ((C, None), w1) →
  RegisterIdentity (ProviderID (event qe)) 0 None (Hex C) chainID None w1
    = (Some e, w2) →
  registerIdentity qe id B s
  = (Some (ErrWrap e "could not register identity on BC"),
     mkRegistrar w2 (registeredIdentities s)
       (calls s ++
          [CallGetChannelAddress chainID id;
           CallRegisterIdentity (ProviderID (event qe)) 0 None (Hex C)
             chainID None])).
Proof.
  intros Hnz Hchain Hchannel Hsubmit.
  assert ((chainID =? l2chainID)%Z = true) as Hl2 by by apply Z.eqb_eq.
  unfold registerIdentity. rewrite Hnz, Hl2.
  erewrite bind_run by (apply invoke_run, Hchannel). simpl.
  unfold submitRegistration.
  erewrite bind_run by (apply invoke_run, Hsubmit). simpl.
  by rewrite <- app_assoc.
Qed.

End PipelineMore.

(** * More about the worker, the retries and the shutdown *)

Section OrchestratorMore.
Context {W : Type}.
Context `{!Imports, !ChainFlags}.
Context `{!registrationStatusChecker W, !txer W, !multiChainAddressKeeper W,
          !bsaver W, !bc W}.
Variable cfg : ProviderRegistrarConfig.

Implicit Types (s : System (W := W)) (r : Registrar (W := W)).
Implicit Types (qe : queuedEvent) (l : Label) (ls : list Label).

(** *** What one turn of the worker does to the registrar *)






(** *** A registered provider *)



(** *** Retry counts *)

Lemma step_retries_within l s s' :
  (MaxRetries cfg ≤ int_max)%Z →
  retries_within cfg s →
  step cfg l s = Next s' →
  retries_within cfg s'.
Proof.
  intros Hmax [Hq Ht]. unfold retries_within. destruct l; simpl.
  - destruct (worker s); try discriminate; by intros [= <-].
  - intros [= <-]. simpl. split; [| done].
    apply Forall_app. split; [done |]. constructor; [simpl; lia | done].
  - destruct (worker s); try discriminate.
    destruct (queue s) as [|qe rest] eqn:Hqueue; try discriminate.
    intros [= <-]. apply Forall_cons in Hq as [Hqe Hrest].
    destruct (needsHandling qe (pr s)); simpl; [| done].
    unfold handleEventWithRetries. simpl.
    destruct (handleEvent cfg qe (pr s)) as [[e|] r1]; simpl; [| done].
    destruct (retries qe <? MaxRetries cfg)%Z eqn:Hlt; simpl; [| done].
    apply Z.ltb_lt in Hlt. split; [done |].
    apply Forall_app. split; [done |]. constructor; [| done]. simpl.
    rewrite int_wrap_ok by (unfold int_ok, int_min, int_max in *; lia).
    split; [lia | done].
  - destruct (worker s); try discriminate.
    destruct (stopChan s); try discriminate. by intros [= <-].
  - destruct (timers s !! i) as [[qe d]|] eqn:Hi; try discriminate.
    intros [= <-]. simpl. split.
    + apply Forall_app. split; [done |]. constructor; [| done].
      apply (Forall_lookup_1 _ _ _ _ Ht) in Hi. simpl in Hi. lia.
    + by apply Forall_delete.
  - destruct (stopChan s); try discriminate.
    destruct (timers s !! i) as [[qe d]|] eqn:Hi; try discriminate.
    intros [= <-]. simpl. split; [by rewrite app_nil_r | by apply Forall_delete].
  - unfold stop, once_Do, close_stopChan.
    destruct (once s); [by intros [= <-] |]. simpl.
    destruct (stopChan s); try discriminate. by intros [= <-].
Qed.

(** X9. With [MaxRetries] within the range of an int: in every state reached
    from a new registrar, an event waiting to be sent has a retry count
    between 0 and [MaxRetries], and an event waiting for its timer has one
    between 1 and [MaxRetries] and waits for [DelayBetweenRetries]. *)
Theorem retry_counts_stay_within_budget (w : W) ls s :
  (MaxRetries cfg ≤ int_max)%Z →
  run cfg ls (NewProviderRegistrar w) = Next s →
  retries_within cfg s.
Proof.
  intros Hmax.
  assert (retries_within cfg (NewProviderRegistrar w)) as Hnew by by split.
  revert Hnew. generalize (NewProviderRegistrar w). clear w.
  induction ls as [|l ls IH]; intros s0 Hinv; simpl.
  - by intros [= <-].
  - destruct (step cfg l s0) as [s1| |] eqn:Hstep; try discriminate.
    apply IH. by apply (step_retries_within l s0).
Qed.

(** *** Why the worker returns *)

Lemma step_exit_explained l s s' :
  exit_explained s → step cfg l s = Next s' → exit_explained s'.
Proof.
  unfold exit_explained. intros Hinv. destruct l; simpl.
  - destruct (worker s); try discriminate; by intros [= <-].
  - by intros [= <-].
  - destruct (worker s) eqn:Hw; try discriminate.
    destruct (queue s) as [|qe rest]; try discriminate. intros [= <-].
    destruct (needsHandling qe (pr s)); simpl; [| by rewrite Hw].
    unfold handleEventWithRetries. simpl.
    destruct (handleEvent cfg qe (pr s)) as [[e|] r1].
    + destruct (retries qe <? MaxRetries cfg)%Z; simpl; [by rewrite Hw | eauto].
    + simpl. by rewrite Hw.
  - destruct (worker s); try discriminate.
    destruct (stopChan s) eqn:Hc; try discriminate. by intros [= <-].
  - destruct (timers s !! i) as [[qe d]|]; try discriminate. by intros [= <-].
  - destruct (stopChan s) eqn:Hc; try discriminate.
    destruct (timers s !! i) as [[qe d]|]; try discriminate. intros [= <-].
    simpl. destruct (worker s) as [| |[e|]]; done.
  - unfold stop, once_Do, close_stopChan.
    destruct (once s); [by intros [= <-] |]. simpl.
    destruct (stopChan s); try discriminate. intros [= <-]. simpl.
    by destruct (worker s) as [| |[e|]].
Qed.

Lemma run_exit_explained ls s s' :
  exit_explained s → run cfg ls s = Next s' → exit_explained s'.
Proof.
  revert s. induction ls as [|l ls IH]; intros s Hinv; simpl.
  - by intros [= <-].
  - destruct (step cfg l s) as [s1| |] eqn:Hstep; try discriminate.
    apply IH. by apply (step_exit_explained l s).
Qed.

(** X10. In every state reached from a new registrar: if [start] has returned
    nil, [stop] was called before; if it has returned an error, the error
    is the "max attempts reached" one around the error of a pipeline run. *)
Theorem worker_exit_is_explained (w : W) ls s :
  run cfg ls (NewProviderRegistrar w) = Next s →
  match worker s with
  | Exited None => 0 < stops_in ls
  | Exited (Some e) =>
      ∃ cause, e = ErrWrap cause "max attempts reached for provider registration"
  | _ => True
  end.
Proof.
  intros Hrun.
  assert (exit_explained s) as Hexit.
  { by apply (run_exit_explained ls (NewProviderRegistrar w)). }
  assert (latch_consistent (NewProviderRegistrar w)) as Hnew by (left; done).
  pose proof (run_consistent cfg ls _ Hnew) as Hlatch. rewrite Hrun in Hlatch.
  destruct Hlatch as [Hinv Hn]. unfold exit_explained in Hexit.
  destruct (worker s) as [| |[e|]]; try done.
  destruct Hinv as [(_ & Hc & _)|(_ & _ & Hone)]; [congruence |].
  unfold NewProviderRegistrar in Hn. cbn [closes] in Hn. lia.
Qed.

(** *** Shutdown and the events still waiting *)

(** X11. With the stop channel open no retry can be cancelled; once it is
    closed, the waiting retries can all return one after the other, and
    then none is left and none was sent to the queue. *)
Theorem shutdown_drops_pending_retries s :
  (stopChan s = Open → ∀ i, step cfg (RequeueCancelled i) s = Disabled) ∧
  (stopChan s = Closed →
   run cfg (replicate (length (timers s)) (RequeueCancelled 0)) s
   = Next (set_timers [] s)).
Proof.
  split.
  - intros Hc i. simpl. by rewrite Hc.
  - destruct s as [r o c q t wk n h]. simpl. intros ->.
    induction t as [|[qe d] t IH]; simpl; [done |].
    rewrite app_nil_r. unfold set_queue, set_timers in *. simpl in *.
    exact IH.
Qed.


End OrchestratorMore.

(** * Properties of the port pool *)

Module PortPoolFacts.
Import PortPool.

Section Facts.
Context {OS : Type}.
Variable available : Z → OS → (bool * option error) * OS.
Variable Intn : Z → OS → Z * OS.
Variable pool : Pool.

Local Abbreviation Acquire := (Acquire available Intn pool).
Local Abbreviation AcquireMultiple := (AcquireMultiple available Intn pool).
Local Abbreviation seekAvailablePort := (seekAvailablePort available pool).

Lemma port_in_range (i : Z) :
  int_ok (start pool) →
  (start pool + capacity pool - 1 ≤ int_max)%Z →
  (0 ≤ i < capacity pool)%Z →
  int_wrap (start pool + i) = (start pool + i)%Z ∧
  in_range pool (start pool + i).
Proof.
  intros Hs Hmax Hi. split.
  - apply int_wrap_ok. unfold int_ok in *. lia.
  - unfold in_range. lia.
Qed.

Lemma seek_success indices os p os' :
  seek available pool indices os = ((p, None), os') →
  ∃ i, i ∈ indices ∧ p = int_wrap (start pool + i) ∧
       ∃ os0, available p os0 = ((true, None), os').
Proof.
  revert os. induction indices as [|i rest IH]; intros os; simpl.
  - discriminate.
  - destruct (available (int_wrap (start pool + i)) os)
      as [[free err] os1] eqn:Hprobe.
    destruct free, err as [e|]; try discriminate.
    + intros [= <- <-]. exists i. split; [by left |]. eauto.
    + intros Hrest. destruct (IH _ Hrest) as (j & Hj & Hp & Hfree).
      exists j. split; [by right | done].
Qed.

(** X13. [Acquire] panics exactly when the pool has no capacity. *)
Theorem Acquire_panics_without_capacity os :
  Acquire os = None ↔ (capacity pool ≤ 0)%Z.
Proof.
  unfold PortPool.Acquire, randomPort.
  destruct (capacity pool <=? 0)%Z eqn:Hc.
  - apply Z.leb_le in Hc. done.
  - apply Z.leb_gt in Hc.
    destruct (Intn (capacity pool) os) as [r os1].
    destruct (available _ os1) as [[free [e|]] os2]; [split; [done | lia] |].
    destruct (if negb free then _ else _) as [[p' err'] os3].
    split; [done | lia].
Qed.

Lemma Acquire_success os p os' :
  draws_below Intn →
  int_ok (start pool) →
  (start pool + capacity pool - 1 ≤ int_max)%Z →
  Acquire os = Some ((p, None), os') →
  in_range pool p ∧ ∃ os0, available p os0 = ((true, None), os').
Proof.
  intros Intn_range Hs Hmax. unfold PortPool.Acquire, randomPort.
  destruct (capacity pool <=? 0)%Z eqn:Hc; [discriminate |].
  apply Z.leb_gt in Hc.
  pose proof (Intn_range (capacity pool) os Hc) as Hr.
  destruct (Intn (capacity pool) os) as [r os1]. simpl in Hr.
  destruct (port_in_range r Hs Hmax Hr) as [Hwrap Hin]. rewrite Hwrap.
  destruct (available (start pool + r) os1) as [[free [e|]] os2] eqn:Hprobe;
    [discriminate |].
  destruct free; simpl.
  - intros [= <- <-]. eauto.
  - destruct (PortPool.seekAvailablePort available pool os2)
      as [[p' [e|]] os3] eqn:Hseek; [discriminate |].
    simpl. intros [= <- <-].
    apply seek_success in Hseek as (i & Hi & -> & Hfree).
    apply elem_of_seqZ in Hi.
    destruct (port_in_range i Hs Hmax) as [Hw Hrange]; [lia |].
    rewrite Hw in *. eauto.
Qed.

(** X14. A port that [Acquire] returns with a nil error is a port of the range,
    and the probe of that port was the last thing done and said "free". *)
Theorem Acquire_returns_a_free_port_of_the_range os p os' :
  draws_below Intn →
  int_ok (start pool) →
  (start pool + capacity pool - 1 ≤ int_max)%Z →
  Acquire os = Some ((p, None), os') →
  in_range pool p ∧ ∃ os0, available p os0 = ((true, None), os').
Proof. apply Acquire_success. Qed.

Lemma seek_all_busy indices os :
  (∀ p os, (available p os).1 = (false, None)) →
  (seek available pool indices os).1
  = (0%Z, Some (ErrCollaborator "port pool is exhausted")).
Proof.
  intros Hbusy. revert os. induction indices as [|i rest IH]; intros os; simpl.
  - done.
  - pose proof (Hbusy (int_wrap (start pool + i)) os) as Hprobe.
    destruct (available (int_wrap (start pool + i)) os) as [[free err] os1].
    simpl in Hprobe. injection Hprobe as -> ->. apply IH.
Qed.

(** X15. When every probe says "not free", [Acquire] gives up after the scan of
    the range: port 0 and the error "port pool is exhausted", wrapped. *)
Theorem Acquire_on_an_exhausted_pool os :
  (0 < capacity pool)%Z →
  (∀ p os, (available p os).1 = (false, None)) →
  ∃ os',
    Acquire os
    = Some ((0%Z,
             Some (ErrWrap (ErrCollaborator "port pool is exhausted")
                     "could not acquire port")), os').
Proof.
  intros Hc Hbusy. unfold PortPool.Acquire, randomPort.
  apply Z.leb_gt in Hc. rewrite Hc.
  destruct (Intn (capacity pool) os) as [r os1].
  pose proof (Hbusy (int_wrap (start pool + r)) os1) as Hprobe.
  destruct (available (int_wrap (start pool + r)) os1) as [[free err] os2].
  simpl in Hprobe. injection Hprobe as -> ->. simpl.
  pose proof (seek_all_busy (seqZ 0 (capacity pool)) os2 Hbusy) as Hseek.
  unfold PortPool.seekAvailablePort.
  destruct (seek available pool (seqZ 0 (capacity pool)) os2) as [[p' err'] os3].
  simpl in Hseek. injection Hseek as -> ->. simpl. eauto.
Qed.

(** *** A machine whose answers do not change *)

Lemma seek_lowest (answer : Z → bool * option error) :
  (∀ p os, (available p os).1 = answer p) →
  int_ok (start pool) →
  ∀ (n : nat) (m : Z) os,
    (0 ≤ m)%Z → (start pool + m + Z.of_nat n - 1 ≤ int_max)%Z →
    let result := (seek available pool (seqZ m (Z.of_nat n)) os).1 in
    (∃ i, (m ≤ i < m + Z.of_nat n)%Z ∧
          result = ((start pool + i)%Z, (answer (start pool + i)%Z).2) ∧
          answer (start pool + i)%Z ≠ (false, None) ∧
          ∀ j, (m ≤ j < i)%Z → answer (start pool + j)%Z = (false, None)) ∨
    (result = (0%Z, Some (ErrCollaborator "port pool is exhausted")) ∧
     ∀ j, (m ≤ j < m + Z.of_nat n)%Z → answer (start pool + j)%Z = (false, None)).
Proof.
  intros Hstable Hs. induction n as [|n IH]; intros m os Hm Hmax; cbv zeta.
  - right. split; [done | intros j Hj; lia].
  - rewrite seqZ_cons by lia.
    replace (Z.pred (Z.of_nat (S n))) with (Z.of_nat n) by lia. simpl.
    assert (int_wrap (start pool + m) = (start pool + m)%Z) as ->.
    { apply int_wrap_ok. unfold int_ok in *. lia. }
    pose proof (Hstable (start pool + m)%Z os) as Hprobe.
    destruct (available (start pool + m)%Z os) as [[free err] os1]. simpl in Hprobe.
    assert (free = false ∧ err = None ∨ answer (start pool + m)%Z ≠ (false, None))
      as [[-> ->]|Hfound].
    { destruct free, err; rewrite <- Hprobe; auto. }
    + destruct (IH (Z.succ m) os1) as [(i & Hi & Hres & Hfree & Hbelow)|[Hres Hall]];
        [lia.. | |].
      * left. exists i. split; [lia |]. split; [done |]. split; [done |].
        intros j Hj. destruct (decide (j = m)) as [->|]; [done |].
        apply Hbelow. lia.
      * right. split; [done |]. intros j Hj.
        destruct (decide (j = m)) as [->|]; [done |]. apply Hall. lia.
    + left. exists m. split; [lia |]. rewrite <- Hprobe. split.
      * destruct free, err; simpl; done.
      * split; [by rewrite Hprobe | intros j Hj; lia].
Qed.

(** X16. On a machine whose answers do not change during the scan,
    [seekAvailablePort] returns the lowest port of the range whose probe
    says "free" or fails, with the error of that probe; when every port of
    the range is taken it returns port 0 and "port pool is exhausted". *)
Theorem seekAvailablePort_finds_the_lowest_port
    (answer : Z → bool * option error) os :
  (∀ p os, (available p os).1 = answer p) →
  int_ok (start pool) →
  (start pool + capacity pool - 1 ≤ int_max)%Z →
  let result := (seekAvailablePort os).1 in
  (∃ i, (0 ≤ i < capacity pool)%Z ∧
        result = ((start pool + i)%Z, (answer (start pool + i)%Z).2) ∧
        answer (start pool + i)%Z ≠ (false, None) ∧
        ∀ j, (0 ≤ j < i)%Z → answer (start pool + j)%Z = (false, None)) ∨
  (result = (0%Z, Some (ErrCollaborator "port pool is exhausted")) ∧
   ∀ j, (0 ≤ j < capacity pool)%Z → answer (start pool + j)%Z = (false, None)).
Proof.
  intros Hstable Hs Hmax. cbv zeta. unfold PortPool.seekAvailablePort.
  destruct (decide (capacity pool ≤ 0)%Z) as [Hc|Hc].
  - right. rewrite seqZ_nil by done. split; [done | intros j Hj; lia].
  - pose proof (seek_lowest answer Hstable Hs (Z.to_nat (capacity pool)) 0 os)
      as Hseek.
    rewrite Z2Nat.id in Hseek by lia. apply Hseek; lia.
Qed.

(** *** Several ports *)



(** X18. The pool reserves nothing: with a range of one port that stays free,
    [AcquireMultiple] returns that same port [n] times. *)
Theorem AcquireMultiple_may_repeat_a_port (n : Z) os :
  draws_below Intn →
  int_ok (start pool) →
  capacity pool = 1%Z →
  (∀ p os, (available p os).1 = (true, None)) →
  ∃ os',
    AcquireMultiple n os
    = Some ((replicate (Z.to_nat n) (start pool), None), os').
Proof.
  intros Hdraw Hs Hc Hfree.
  assert (∀ os, ∃ os', Acquire os = Some ((start pool, None), os')) as Hacq.
  { intros os0. unfold PortPool.Acquire, randomPort. rewrite Hc. simpl.
    pose proof (Hdraw 1%Z os0 eq_refl) as Hr.
    destruct (Intn 1 os0) as [r os1]. simpl in Hr.
    assert (r = 0%Z) as -> by lia. rewrite Z.add_0_r, int_wrap_ok by done.
    pose proof (Hfree (start pool) os1) as Hprobe.
    destruct (available (start pool) os1) as [[free err] os2].
    simpl in Hprobe. injection Hprobe as -> ->. simpl. eauto. }
  unfold PortPool.AcquireMultiple.
  assert (∀ k ports os, ∃ os',
            acquireLoop available Intn pool k ports os
            = Some ((ports ++ replicate k (start pool), None), os')) as Hloop.
  { induction k as [|k IH]; intros ports os0; simpl.
    - exists os0. by rewrite app_nil_r.
    - destruct (Hacq os0) as [os1 ->].
      destruct (IH (ports ++ [start pool]) os1) as [os2 ->].
      exists os2. by rewrite <- app_assoc. }
  apply (Hloop _ [] os).
Qed.

End Facts.

End PortPoolFacts.

(** * Properties of the build environment file *)

Module BuildEnvFacts.
Import BuildEnv.

(** X19. Every build is of exactly one kind: a release build, a master build
    or a pull-request build. *)
Theorem build_kinds_partition (env : gmap string string) :
  (isReleaseBuild env = true ∧ isMasterBuild env = false ∧
   isPullRequestBuild env = false) ∨
  (isReleaseBuild env = false ∧ isMasterBuild env = true ∧
   isPullRequestBuild env = false) ∨
  (isReleaseBuild env = false ∧ isMasterBuild env = false ∧
   isPullRequestBuild env = true).
Proof.
  unfold isPullRequestBuild, isMasterBuild.
  destruct (isReleaseBuild env),
    (String.eqb (Getenv env "BUILD_BRANCH") "master"); simpl; tauto.
Qed.

Lemma append_not_empty (a b : string) : a ≠ "" → a +:+ b ≠ "".
Proof. destruct a; [done | discriminate]. Qed.

(** X20. The two versions are never empty.  A release build (a [BUILD_TAG] that
    is set and not empty) has the tag as both versions; any other build
    has [0.0.0-dev_] followed by [BUILD_COMMIT], and [0.0.0] for the PPA. *)
Theorem versions_are_never_empty (env : gmap string string) :
  buildVersion env ≠ "" ∧ ppaVersion env ≠ "" ∧
  (isReleaseBuild env = true ↔
   ∃ tag, env !! "BUILD_TAG" = Some tag ∧ tag ≠ "") ∧
  (isReleaseBuild env = true →
   buildVersion env = Getenv env "BUILD_TAG" ∧
   ppaVersion env = Getenv env "BUILD_TAG") ∧
  (isReleaseBuild env = false →
   buildVersion env = "0.0.0-dev_" +:+ Getenv env "BUILD_COMMIT" ∧
   ppaVersion env = "0.0.0").
Proof.
  unfold buildVersion, ppaVersion, isReleaseBuild, releaseVersion, Getenv.
  destruct (String.eqb_spec (default "" (env !! "BUILD_TAG")) "") as [Htag|Htag];
    simpl.
  - split; [done |]. split; [done |]. split; [| done]. split; [done |].
    intros (tag & E & Hne). rewrite E in Htag. simpl in Htag. congruence.
  - split; [done |]. split; [done |]. split; [| done]. split; [| done].
    intros _. destruct (env !! "BUILD_TAG") as [tag|]; [eauto | done].
Qed.

Lemma envVars_ignore_the_token (env env' : gmap string string) :
  (∀ name, name ≠ GithubApiToken → env' !! name = env !! name) →
  envVars env' = envVars env.
Proof.
  intros Hother.
  unfold envVars, buildVersion, ppaVersion, isPullRequestBuild, isMasterBuild,
    isReleaseBuild, releaseVersion, Getenv.
  by rewrite !Hother by done.
Qed.

Section Files.
Context {F : Type}.
Variable Mkdir : string → Z → F → option error * F.
Variable Create : string → F → option error * F.
Variable Write : string → string → F → option error * F.
Variable Close : string → F → option error * F.

Local Abbreviation writeEnvVars := (writeEnvVars Mkdir Create Write Close).
Local Abbreviation GenerateEnvFile := (GenerateEnvFile Mkdir Create Write Close).
Local Abbreviation writeLines := (writeLines Write).
Local Abbreviation written := (written Write).

Lemma written_cons path v vars fs :
  written path (v :: vars) fs
  = written path vars (Write path (exportLine v) fs).2.
Proof. reflexivity. Qed.

(** Every write succeeds: all lines are written and the result is nil. *)
Lemma writeLines_all path vars : ∀ d,
  (∀ j v, vars !! j = Some v →
     (Write path (exportLine v) (written path (take j vars) (files d))).1 = None) →
  writeLines path vars d
  = (None, mkDisk (written path vars (files d)) (ops d ++ writesOf path vars)).
Proof.
  induction vars as [|v rest IH]; intros d Hok.
  - unfold writesOf. simpl. rewrite app_nil_r. by destruct d.
  - cbn [BuildEnv.writeLines]. unfold doing.
    pose proof (Hok 0 v eq_refl) as Hfirst. cbn in Hfirst.
    destruct (Write path (exportLine v) (files d)) as [err fs] eqn:Hw.
    cbn in Hfirst. subst err. rewrite IH.
    + rewrite written_cons, Hw. cbn [files ops snd]. unfold writesOf.
      rewrite fmap_cons. cbn [compose]. by rewrite <- app_assoc.
    + intros j u Hj. cbn [files]. specialize (Hok (S j) u Hj).
      cbn [take] in Hok. by rewrite written_cons, Hw in Hok.
Qed.

(** The writes before the [k]-th succeed and the [k]-th fails: the loop
    returns its error and the later lines are not written. *)
Lemma writeLines_fails path vars : ∀ (k : nat) d v e fs',
  (∀ j u, j < k → vars !! j = Some u →
     (Write path (exportLine u) (written path (take j vars) (files d))).1 = None) →
  vars !! k = Some v →
  Write path (exportLine v) (written path (take k vars) (files d)) = (Some e, fs') →
  writeLines path vars d
  = (Some e, mkDisk fs' (ops d ++ writesOf path (take (S k) vars))).
Proof.
  induction vars as [|v0 rest IH]; intros k d v e fs' Hok Hk Hfail;
    [done |].
  cbn [BuildEnv.writeLines]. unfold doing. destruct k as [|k].
  - injection Hk as ->. cbn in Hfail. rewrite Hfail.
    unfold writesOf. by cbn.
  - pose proof (Hok 0 v0 ltac:(lia) eq_refl) as Hfirst. cbn in Hfirst.
    destruct (Write path (exportLine v0) (files d)) as [err fs] eqn:Hw.
    cbn in Hfirst. subst err.
    cbn [take] in Hfail. rewrite written_cons, Hw in Hfail. cbn [snd] in Hfail.
    rewrite (IH k _ v e fs'); cbn [files ops]; try done.
    + unfold writesOf. cbn [take]. rewrite !fmap_cons. cbn [compose].
      by rewrite <- app_assoc.
    + intros j u Hj Hu. specialize (Hok (S j) u ltac:(lia) Hu).
      cbn [take] in Hok. by rewrite written_cons, Hw in Hok.
Qed.

(** Whatever the file system answers, what the loop logs are writes of
    lines of [vars], to [path]. *)
Lemma writeLines_only_lines path vars d :
  ∃ k : nat,
    ops (writeLines path vars d).2 = ops d ++ writesOf path (take k vars).
Proof.
  revert d. induction vars as [|v rest IH]; intros d; simpl.
  - exists 0. unfold writesOf. simpl. by rewrite app_nil_r.
  - unfold doing.
    destruct (Write path (exportLine v) (files d)) as [[e|] fs] eqn:Hw; simpl.
    + exists 1. unfold writesOf. by simpl.
    + destruct (IH (mkDisk fs (ops d ++ [OpWrite path (exportLine v)])))
        as (k & Hops).
      exists (S k). rewrite Hops. simpl. unfold writesOf. simpl.
      by rewrite <- app_assoc.
Qed.

Lemma writeEnvVars_not_created vars d e fs :
  Create "./build/env.sh" (Mkdir "./build" 493 (files d)).2 = (Some e, fs) →
  writeEnvVars vars d
  = (Some e,
     mkDisk fs (ops d ++ [OpMkdir "./build" 493; OpCreate "./build/env.sh"])).
Proof.
  intros Hcreate. unfold BuildEnv.writeEnvVars, doing. simpl.
  destruct (Mkdir "./build" 493 (files d)) as [made fs1]. simpl in *.
  rewrite Hcreate. simpl. by rewrite <- app_assoc.
Qed.

Lemma writeEnvVars_created vars d fs2 :
  Create "./build/env.sh" (Mkdir "./build" 493 (files d)).2 = (None, fs2) →
  writeEnvVars vars d
  = let '(result, d3) :=
      writeLines "./build/env.sh" vars
        (mkDisk fs2 (ops d ++ [OpMkdir "./build" 493; OpCreate "./build/env.sh"])) in
    (result,
     mkDisk (Close "./build/env.sh" (files d3)).2
       (ops d3 ++ [OpClose "./build/env.sh"])).
Proof.
  intros Hcreate. unfold BuildEnv.writeEnvVars, doing. simpl.
  destruct (Mkdir "./build" 493 (files d)) as [made fs1]. simpl in *.
  rewrite Hcreate. simpl. rewrite <- app_assoc. simpl.
  destruct (writeLines "./build/env.sh" vars _) as [result d3].
  by destruct (Close "./build/env.sh" (files d3)).
Qed.

(** X22. [writeEnvVars] makes the directory (and ignores how that went) and
    creates the file.  If the creation fails, its error is the result and
    nothing is written or closed.  If every write succeeds, all lines are
    written in the order of the variables, the file is closed and the
    result is nil.  If the writes before the [k]-th succeed and the [k]-th
    fails, the result is its error: the lines up to the [k]-th are
    written, the later ones are not, and the file is closed. *)
Theorem writeEnvVars_writes_in_order vars d :
  let path := "./build/env.sh" in
  let opening := [OpMkdir "./build" 493; OpCreate path] in
  let made := (Mkdir "./build" 493 (files d)).2 in
  (∀ e fs, Create path made = (Some e, fs) →
     writeEnvVars vars d = (Some e, mkDisk fs (ops d ++ opening))) ∧
  (∀ fs2,
     Create path made = (None, fs2) →
     (∀ j v, vars !! j = Some v →
        (Write path (exportLine v) (written path (take j vars) fs2)).1 = None) →
     writeEnvVars vars d
     = (None,
        mkDisk (Close path (written path vars fs2)).2
          (ops d ++ opening ++ writesOf path vars ++ [OpClose path]))) ∧
  (∀ fs2 (k : nat) v e fs',
     Create path made = (None, fs2) →
     (∀ j u, j < k → vars !! j = Some u →
        (Write path (exportLine u) (written path (take j vars) fs2)).1 = None) →
     vars !! k = Some v →
     Write path (exportLine v) (written path (take k vars) fs2) = (Some e, fs') →
     writeEnvVars vars d
     = (Some e,
        mkDisk (Close path fs').2
          (ops d ++ opening ++ writesOf path (take (S k) vars) ++ [OpClose path]))).
Proof.
  cbv zeta. split; [| split].
  - intros e fs Hcreate. by apply writeEnvVars_not_created.
  - intros fs2 Hcreate Hok. rewrite (writeEnvVars_created _ _ _ Hcreate).
    rewrite writeLines_all by done. simpl. by rewrite <- !app_assoc.
  - intros fs2 k v e fs' Hcreate Hok Hk Hfail.
    rewrite (writeEnvVars_created _ _ _ Hcreate).
    rewrite (writeLines_fails _ _ k _ v e fs') by done.
    simpl. by rewrite <- !app_assoc.
Qed.

(** X21. The API token of GitHub never reaches the file that
    [GenerateEnvFile] writes.  Setting, changing or unsetting
    [GITHUB_API_TOKEN] changes nothing of what [GenerateEnvFile] does;
    every line it writes is the export line of a variable whose name is
    not [GITHUB_API_TOKEN]; and when the file is created and no write
    fails, it writes exactly the nine lines for [RELEASE_BUILD],
    [MASTER_BUILD], [PR_BUILD], [BUILD_VERSION], [PPA_VERSION],
    [BUILD_NUMBER], [GITHUB_OWNER], [GITHUB_REPO] and
    [GITHUB_REPO_DEV_BUILD], in this order, and returns nil. *)
Theorem api_token_is_not_exported (env : gmap string string) d :
  let path := "./build/env.sh" in
  let line name value := "export " +:+ name +:+ "=" +:+ value +:+ ";" +:+ newline in
  (∀ token,
     GenerateEnvFile (<[GithubApiToken := token]> env) d = GenerateEnvFile env d) ∧
  GenerateEnvFile (delete GithubApiToken env) d = GenerateEnvFile env d ∧
  (∃ written_ops,
     ops (GenerateEnvFile env d).2 = ops d ++ written_ops ∧
     ∀ p data, OpWrite p data ∈ written_ops →
       p = path ∧
       ∃ name value, data = line name value ∧ name ≠ GithubApiToken) ∧
  (∀ fs2,
     Create path (Mkdir "./build" 493 (files d)).2 = (None, fs2) →
     (∀ data fs, (Write path data fs).1 = None) →
     (GenerateEnvFile env d).1 = None ∧
     ops (GenerateEnvFile env d).2
     = ops d ++
       [OpMkdir "./build" 493; OpCreate path;
        OpWrite path (line "RELEASE_BUILD" (FormatBool (isReleaseBuild env)));
        OpWrite path (line "MASTER_BUILD" (FormatBool (isMasterBuild env)));
        OpWrite path (line "PR_BUILD" (FormatBool (isPullRequestBuild env)));
        OpWrite path (line "BUILD_VERSION" (buildVersion env));
        OpWrite path (line "PPA_VERSION" (ppaVersion env));
        OpWrite path (line "BUILD_NUMBER" (Getenv env "BUILD_NUMBER"));
        OpWrite path (line "GITHUB_OWNER" (Getenv env "GITHUB_OWNER"));
        OpWrite path (line "GITHUB_REPO" (Getenv env "GITHUB_REPO"));
        OpWrite path
          (line "GITHUB_REPO_DEV_BUILD" (Getenv env "GITHUB_REPO_DEV_BUILD"));
        OpClose path]).
Proof.
  cbv zeta. unfold BuildEnv.GenerateEnvFile. split; [| split; [| split]].
  - intros token. f_equal. apply envVars_ignore_the_token.
    intros name Hname. by apply lookup_insert_ne.
  - f_equal. apply envVars_ignore_the_token.
    intros name Hname. by apply lookup_delete_ne.
  - assert (∀ p data k,
              OpWrite p data ∈ writesOf "./build/env.sh" (take k (envVars env)) →
              p = "./build/env.sh" ∧
              ∃ name value,
                data = "export " +:+ name +:+ "=" +:+ value +:+ ";" +:+ newline ∧
                name ≠ GithubApiToken) as Hlines.
    { intros p data k Hin. unfold writesOf in Hin.
      apply list_elem_of_fmap in Hin as (v & Hv & Hin). simpl in Hv.
      injection Hv as -> ->. split; [done |].
      exists (key v), (val v). split; [done |].
      apply subseteq_take in Hin. simpl in Hin.
      repeat (apply elem_of_cons in Hin as [->|Hin]; [discriminate |]).
      by apply elem_of_nil in Hin. }
    destruct (Create "./build/env.sh" (Mkdir "./build" 493 (files d)).2)
      as [[e|] fs2] eqn:Hcreate.
    + rewrite (writeEnvVars_not_created _ _ _ _ Hcreate). cbn [ops snd].
      eexists. split; [done |].
      intros p data Hin.
      repeat (apply elem_of_cons in Hin as [Hin|Hin]; [discriminate |]).
      by apply elem_of_nil in Hin.
    + rewrite (writeEnvVars_created _ _ _ Hcreate).
      destruct (writeLines_only_lines "./build/env.sh" (envVars env)
                  (mkDisk fs2 (ops d ++ [OpMkdir "./build" 493;
                                         OpCreate "./build/env.sh"])))
        as (k & Hops).
      destruct (writeLines "./build/env.sh" (envVars env) _) as [result d3].
      cbn [ops snd] in *. rewrite Hops, <- !app_assoc.
      eexists. split; [done |].
      intros p data Hin.
      do 2 (apply elem_of_cons in Hin as [Hin|Hin]; [discriminate |]).
      apply elem_of_app in Hin as [Hin|Hin]; [by apply (Hlines p data k) |].
      apply elem_of_cons in Hin as [Hin|Hin]; [discriminate |].
      by apply elem_of_nil in Hin.
  - intros fs2 Hcreate Hok.
    rewrite (writeEnvVars_created _ _ _ Hcreate).
    rewrite writeLines_all by (intros; apply Hok). simpl.
    split; [done |]. by rewrite <- !app_assoc.
Qed.

End Files.

End BuildEnvFacts.

(** * Properties of the receiver *)

Module ReceiverFacts.
Import Receiver.

Section Facts.
Context {S Message Request Response : Type}.
Variable NewMessage : S → Message * S.
Variable Handle : Message → S → option error * S.
Variable NewRequest : S → Request * S.
Variable Consume : Request → S → (Response * option error) * S.
Variable UnpackMessage : list byte → Message → S → (Message * option error) * S.
Variable UnpackRequest : list byte → Request → S → (Request * option error) * S.
Variable Pack : Response → S → (list byte * option error) * S.
Variable Publish : string → list byte → S → option error * S.

Local Abbreviation Op := (Op (Message := Message) (Request := Request)
                             (Response := Response)).
Local Abbreviation State := (State (S := S) (Message := Message)
                               (Request := Request) (Response := Response)).

(** X23. The handler that [Respond] subscribes makes its calls in the order
    new request, unpack, consume, pack, publish, and stops after the first
    of unpack, consume and pack that returns an error.  So a request is
    answered exactly when all three succeed: then the packed response is
    published once, to the reply subject of the request, as the last call;
    in every other case nothing is published. *)
Theorem requestHandler_answers_only_on_success (msg : Msg) (st : State) :
  let st' := requestHandler NewRequest Consume UnpackRequest Pack Publish msg st in
  let new := NewRequest (world st) in
  let unpacked := UnpackRequest (Data msg) new.1 new.2 in
  let consumed := Consume unpacked.1.1 unpacked.2 in
  let packed := Pack consumed.1.1 consumed.2 in
  log st'
  = log st ++ [OpNewRequest; OpUnpack (Data msg)] ++
    match unpacked.1.2 with
    | Some _ => []
    | None =>
        OpConsume unpacked.1.1 ::
        match consumed.1.2 with
        | Some _ => []
        | None =>
            OpPack consumed.1.1 ::
            match packed.1.2 with
            | Some _ => []
            | None => [OpPublish (Reply msg) packed.1.1]
            end
        end
    end.
Proof.
  cbv zeta. unfold requestHandler, act. simpl.
  destruct (NewRequest (world st)) as [requestPtr w1]. simpl.
  destruct (UnpackRequest (Data msg) requestPtr w1) as [[request [e|]] w2]; simpl.
  { by rewrite <- !app_assoc. }
  destruct (Consume request w2) as [[response [e|]] w3]; simpl.
  { by rewrite <- !app_assoc. }
  destruct (Pack response w3) as [[data [e|]] w4]; simpl.
  { by rewrite <- !app_assoc. }
  destruct (Publish (Reply msg) data w4) as [err w5]. simpl.
  by rewrite <- !app_assoc.
Qed.

(** X24. A message is handed to [Handle] only after it was unpacked without an
    error, and then it is the unpacked message and [Handle] is the last
    call; when unpacking fails, [Handle] is not called. *)
Theorem messageHandler_handles_only_unpacked (msg : Msg) (st : State) :
  let st' := messageHandler NewMessage Handle UnpackMessage msg st in
  let unpacked :=
    (UnpackMessage (Data msg) (NewMessage (world st)).1
       (NewMessage (world st)).2).1 in
  log st'
  = log st ++ [OpNewMessage; OpUnpack (Data msg)] ++
    match unpacked.2 with
    | None => [OpHandle unpacked.1]
    | Some _ => []
    end.
Proof.
  cbv zeta. unfold messageHandler, act. simpl.
  destruct (NewMessage (world st)) as [messagePtr w1]. simpl.
  destruct (UnpackMessage (Data msg) messagePtr w1) as [[message [e|]] w2]; simpl.
  - by rewrite <- !app_assoc.
  - destruct (Handle message w2) as [err w3]. simpl. by rewrite <- !app_assoc.
Qed.

End Facts.

End ReceiverFacts.

(** * The further properties on scripted inputs *)

Module MoreScenarios.
Import Mock Fixtures.

(** The migration with a beneficiary read that succeeds: the registration
    is submitted and the provider is registered. *)
Lemma handleEvent_caches_what_it_submits_witness :
  registeredIdentities
    (handleEvent cfg (running provider)
       (fresh (migrationWorld (addrB, None)))).2
  = {[provider]} ∪ ∅.
Proof.
  refine (proj1 (handleEvent_caches_what_it_submits cfg (running provider)
            (fresh (migrationWorld (addrB, None)))
            [CallGetRegistrationStatus 137 providerIdentity;
             CallCheckEligible providerIdentity;
             CallGetRegistryAddress 5;
             CallGetBeneficiary 5 oldRegistryAddress
               (ToCommonAddress providerIdentity);
             CallGetChannelAddress 137 providerIdentity;
             CallRegisterIdentity provider 0 None (Hex addrC) 137 None;
             CallSave provider (Hex addrB)]
            eq_refl) eq_refl _).
  simpl. discriminate.
Defined.

(** A status check that fails, and an eligibility check that fails. *)
Lemma early_errors_end_the_pipeline_witness :
  handleEvent cfg (running provider)
    (fresh (statusWorld [(NotRegistered, Some boom)]))
  = (Some (ErrWrap boom "could not check registration status on BC"),
     mkRegistrar quiet ∅ [CallGetRegistrationStatus 137 providerIdentity]) ∧
  handleEvent cfg (running provider)
    (fresh (mkWorld [(NotRegistered, None)] [(true, Some boom)] [] [] [] [] []))
  = (Some (ErrWrap boom "could not check eligibility for auto-registration"),
     mkRegistrar quiet ∅
       [CallGetRegistrationStatus 137 providerIdentity;
        CallCheckEligible providerIdentity]).
Proof.
  split.
  - exact (proj1 (early_errors_end_the_pipeline cfg (running provider)
                    (fresh (statusWorld [(NotRegistered, Some boom)])))
             NotRegistered boom quiet eq_refl).
  - exact (proj2 (early_errors_end_the_pipeline cfg (running provider)
                    (fresh (mkWorld [(NotRegistered, None)] [(true, Some boom)]
                              [] [] [] [] [])))
             (mkWorld [] [(true, Some boom)] [] [] [] [] []) true boom quiet
             eq_refl eq_refl eq_refl).
Defined.

(** The legacy chain has some other registry (here the zero address):
    nothing is read from the old registry and nothing is submitted. *)
Lemma no_migration_no_submission_witness :
  handleEvent cfg (running provider)
    (fresh (mkWorld [(NotRegistered, None)] [(true, None)]
              [(zeroAddress, None)] [] [] [] []))
  = (None,
     mkRegistrar quiet ∅
       [CallGetRegistrationStatus 137 providerIdentity;
        CallCheckEligible providerIdentity;
        CallGetRegistryAddress 5]).
Proof.
  refine (no_migration_no_submission cfg (running provider)
            (fresh (mkWorld [(NotRegistered, None)] [(true, None)]
                      [(zeroAddress, None)] [] [] [] []))
            (atLookup (mkWorld [] [] [(zeroAddress, None)] [] [] [] []))
            zeroAddress quiet eq_refl _ eq_refl eq_refl).
  exists (mkWorld [] [(true, None)] [(zeroAddress, None)] [] [] [] []).
  split; [reflexivity |].
  exists (mkWorld [] [] [(zeroAddress, None)] [] [] [] []).
  split; reflexivity.
Defined.

(** Off the settlement chain the beneficiary itself is submitted. *)
Lemma registerIdentity_off_settlement_chain_witness :
  registerIdentity (H0 := flagsOff) (running provider) providerIdentity addrB
    (fresh (mkWorld [] [] [] [] [] [None] []))
  = (None,
     mkRegistrar quiet ({[provider]} ∪ ∅)
       [CallRegisterIdentity provider 0 None (Hex addrB) 1 None]).
Proof.
  refine (registerIdentity_off_settlement_chain (H0 := flagsOff)
            (running provider) providerIdentity addrB
            (fresh (mkWorld [] [] [] [] [] [None] [])) None quiet
            eq_refl _ eq_refl).
  unfold chainID, l2chainID. simpl. lia.
Defined.

(** On the settlement chain a submission that fails leaves the store
    alone. *)
Lemma failed_submission_saves_nothing_witness :
  registerIdentity (running provider) providerIdentity addrB
    (fresh (mkWorld [] [] [] [] [(addrC, None)] [Some boom] [None]))
  = (Some (ErrWrap boom "could not register identity on BC"),
     mkRegistrar (mkWorld [] [] [] [] [] [] [None]) ∅
       [CallGetChannelAddress 137 providerIdentity;
        CallRegisterIdentity provider 0 None (Hex addrC) 137 None]).
Proof.
  exact (failed_submission_saves_nothing (running provider) providerIdentity
           addrB (fresh (mkWorld [] [] [] [] [(addrC, None)] [Some boom] [None]))
           addrC (mkWorld [] [] [] [] [] [Some boom] [None]) boom
           (mkWorld [] [] [] [] [] [] [None])
           eq_refl eq_refl eq_refl eq_refl).
Defined.


(** The status check fails once with two retries allowed: the retry that
    waits for its timer has count 1. *)
Lemma retry_counts_stay_within_budget_witness :
  retries_within cfg
    (mkSystem
       (mkRegistrar quiet ∅ [CallGetRegistrationStatus 137 providerIdentity])
       false Open [] [(mkQueued (mkEvent provider "Running") 1, 10000000%Z)]
       Running 0 [mkQueued (mkEvent provider "Running") 1]).
Proof.
  refine (retry_counts_stay_within_budget cfg
            (statusWorld [(NotRegistered, Some boom)])
            [NodeStarted; ServiceEvent (mkEvent provider "Running");
             WorkerReceives]
            _ _ eq_refl).
  by vm_compute.
Defined.

(** No retry allowed and the status check fails: the worker has returned
    with the "max attempts" error. *)
Lemma worker_exit_is_explained_witness :
  ∃ cause,
    ErrWrap (ErrWrap boom "could not check registration status on BC")
      "max attempts reached for provider registration"
    = ErrWrap cause "max attempts reached for provider registration".
Proof.
  exact (worker_exit_is_explained cfg0
           (statusWorld [(NotRegistered, Some boom)])
           [NodeStarted; ServiceEvent (mkEvent provider "Running");
            WorkerReceives]
           (mkSystem
              (mkRegistrar quiet ∅
                 [CallGetRegistrationStatus 137 providerIdentity])
              false Open [] []
              (Exited (Some
                 (ErrWrap (ErrWrap boom "could not check registration status on BC")
                    "max attempts reached for provider registration")))
              0 [])
           eq_refl).
Defined.

(** Two retries wait when the node stops: both return without sending. *)
Lemma shutdown_drops_pending_retries_witness :
  run cfg [RequeueCancelled 0; RequeueCancelled 0] stoppedWithRetries
  = Next (set_timers [] stoppedWithRetries).
Proof.
  exact (proj2 (shutdown_drops_pending_retries cfg stoppedWithRetries) eq_refl).
Defined.


(** *** The port pool *)

Lemma scriptedIntn_draws_below : PortPool.draws_below PortPool.scriptedIntn.
Proof.
  intros n [|r os] Hn; simpl; [lia |]. by apply Z.mod_pos_bound.
Qed.

(** Ports 8000 to 8002 with only 8002 free, and a draw of 8000: the scan
    ends at 8002. *)
Lemma Acquire_returns_a_free_port_of_the_range_witness :
  PortPool.in_range smallPool 8002 ∧
  ∃ os0, PortPool.scriptedAvailable [8002%Z] 8002 os0 = ((true, None), []).
Proof.
  refine (PortPoolFacts.Acquire_returns_a_free_port_of_the_range
            (PortPool.scriptedAvailable [8002%Z]) PortPool.scriptedIntn
            smallPool [0%Z] 8002 [] scriptedIntn_draws_below _ _ eq_refl).
  - by vm_compute.
  - by vm_compute.
Defined.

(** The same range with no port free. *)
Lemma Acquire_on_an_exhausted_pool_witness :
  ∃ os',
    PortPool.Acquire (PortPool.scriptedAvailable []) PortPool.scriptedIntn
      smallPool [1%Z]
    = Some ((0%Z,
             Some (ErrWrap (ErrCollaborator "port pool is exhausted")
                     "could not acquire port")), os').
Proof.
  refine (PortPoolFacts.Acquire_on_an_exhausted_pool
            (PortPool.scriptedAvailable []) PortPool.scriptedIntn
            smallPool [1%Z] _ _).
  - by vm_compute.
  - intros p os. reflexivity.
Defined.

(** With 8000 taken and 8001 and 8002 free, the scan returns 8001. *)
Lemma seekAvailablePort_finds_the_lowest_port_witness :
  (PortPool.seekAvailablePort (PortPool.scriptedAvailable [8002%Z; 8001%Z])
     smallPool []).1
  = (8001%Z, None).
Proof.
  pose proof (PortPoolFacts.seekAvailablePort_finds_the_lowest_port
                (PortPool.scriptedAvailable [8002%Z; 8001%Z]) smallPool
                (λ p, (bool_decide (p ∈ [8002%Z; 8001%Z]), None)) []
                (λ p os, eq_refl)) as Hseek.
  destruct Hseek as [_|[Hnone _]].
  - by vm_compute.
  - by vm_compute.
  - reflexivity.
  - discriminate Hnone.
Defined.


(** A pool of the one port 8000, asked for three ports. *)
Lemma AcquireMultiple_may_repeat_a_port_witness :
  ∃ os',
    PortPool.AcquireMultiple alwaysFree PortPool.scriptedIntn singlePort 3 []
    = Some (([8000%Z; 8000%Z; 8000%Z], None), os').
Proof.
  refine (PortPoolFacts.AcquireMultiple_may_repeat_a_port alwaysFree
            PortPool.scriptedIntn singlePort 3 []
            scriptedIntn_draws_below _ eq_refl _).
  - by vm_compute.
  - intros p os. reflexivity.
Defined.

(** *** The build environment file *)

(** A disk that takes two writes: the first two lines are written, the
    third write fails, and the file is closed. *)
Lemma writeEnvVars_writes_in_order_witness :
  BuildEnv.writeEnvVars (λ _ _, BuildEnv.alwaysOk) (λ _, BuildEnv.alwaysOk)
    BuildEnv.quotaWrite (λ _, BuildEnv.alwaysOk)
    (BuildEnv.envVars masterJob) (BuildEnv.mkDisk 2 [])
  = (Some (ErrCollaborator "no space left on device"),
     BuildEnv.mkDisk 0
       ([BuildEnv.OpMkdir "./build" 493; BuildEnv.OpCreate "./build/env.sh"] ++
        BuildEnv.writesOf "./build/env.sh" (take 3 (BuildEnv.envVars masterJob)) ++
        [BuildEnv.OpClose "./build/env.sh"])).
Proof.
  refine (proj2 (proj2 (BuildEnvFacts.writeEnvVars_writes_in_order
                          (λ _ _, BuildEnv.alwaysOk) (λ _, BuildEnv.alwaysOk)
                          BuildEnv.quotaWrite (λ _, BuildEnv.alwaysOk)
                          (BuildEnv.envVars masterJob) (BuildEnv.mkDisk 2 [])))
            2 2 _ (ErrCollaborator "no space left on device") 0
            eq_refl _ eq_refl eq_refl).
  intros j u Hj Hu. destruct j as [|[|j]]; [reflexivity | reflexivity | lia].
Defined.

(** A master build on a disk where nothing fails: the file is written and
    the result is nil, whatever the token is. *)
Lemma api_token_is_not_exported_witness :
  (BuildEnv.GenerateEnvFile (λ _ _, BuildEnv.alwaysOk) (λ _, BuildEnv.alwaysOk)
     (λ _ _, BuildEnv.alwaysOk) (λ _, BuildEnv.alwaysOk)
     masterJob (BuildEnv.mkDisk 0 [])).1
  = None.
Proof.
  exact (proj1 (proj2 (proj2 (proj2 (BuildEnvFacts.api_token_is_not_exported
                  (λ _ _, BuildEnv.alwaysOk) (λ _, BuildEnv.alwaysOk)
                  (λ _ _, BuildEnv.alwaysOk) (λ _, BuildEnv.alwaysOk)
                  masterJob (BuildEnv.mkDisk 0 []))))
                 0 eq_refl (λ _ _, eq_refl))).
Defined.

(** *** Entering [start] again *)

(** After the fatal error a new Started event enters the loop again, and
    the sender that was blocked is received. *)
Lemma restart_after_fatal_error :
  run cfg [NodeStarted] afterFatalError = Next (set_worker Running afterFatalError) ∧
  ∃ s', run cfg [NodeStarted; WorkerReceives] afterFatalError = Next s' ∧
        queue s' = [] ∧
        calls (pr s') = [CallGetRegistrationStatus 137 (mkIdentity "0xdef")].
Proof.
  split; [reflexivity |]. eexists. split; [reflexivity |]. split; reflexivity.
Qed.

End MoreScenarios.
